(** * Span-properties sampling policy

    A shallow embedding of the tail-sampling policy evaluator
    [spanPropertiesFilter] (package [sampling]) and the properties of
    its constructor, of its four entry points and of [tsToMicros].

    Conventions of the embedding:
    - a Go pointer that may be nil is an [option]; dereferencing nil is
      the run-time panic [NilDereference] of the [result] monad;
    - [int64] values are integers of [Z] kept in range by [Int64.wrap],
      so that overflow wraps as it does in Go;
    - the two nested [range] loops of [Evaluate] are the fixpoints
      [rangeSpans] and [rangeBatches], threading the four local
      variables of the method as a [scanState];
    - the receiver [df] and the aggregate [trace] are the pointees of the
      (non-nil) pointers the policy host passes. *)

From Stdlib Require Import ZArith List String Ascii Bool Lia Permutation.
Import ListNotations.
Open Scope string_scope.
Open Scope Z_scope.

(** ** Signed 64-bit arithmetic *)

Module Int64.

Definition min_signed : Z := - 2 ^ 63.
Definition max_signed : Z := 2 ^ 63 - 1.

Definition in_range (z : Z) : Prop := min_signed <= z <= max_signed.

(** Two's complement reduction of an integer to 64 bits. *)
Definition wrap (z : Z) : Z := (z + 2 ^ 63) mod 2 ^ 64 - 2 ^ 63.

Definition add (a b : Z) : Z := wrap (a + b).
Definition sub (a b : Z) : Z := wrap (a - b).
Definition mul (a b : Z) : Z := wrap (a * b).

End Int64.

(** ** Run-time panics *)

Inductive panic : Set := NilDereference.

Inductive result (A : Type) : Type :=
| Ok (a : A)
| Panicked (p : panic).

Arguments Ok {A} a.
Arguments Panicked {A} p.

Definition bind {A B : Type} (r : result A) (k : A -> result B) : result B :=
  match r with
  | Ok a => k a
  | Panicked p => Panicked p
  end.

Notation "x <- r ;; k" := (bind r (fun x => k))
  (at level 61, r at next level, right associativity).

(** [*p] for a pointer [p]. *)
Definition deref {A : Type} (p : option A) : result A :=
  match p with
  | Some a => Ok a
  | None => Panicked NilDereference
  end.

Definition isNil {A : Type} (p : option A) : bool :=
  match p with
  | Some _ => false
  | None => true
  end.

(** ** Data *)

(** [timestamp.Timestamp]: [Seconds] is an int64, [Nanos] an int32. *)
Record Timestamp : Set := mkTimestamp { Seconds : Z; Nanos : Z }.

(** [tracepb.TruncatableString], the type of a span's name. *)
Record TruncatableString : Set := mkTruncatableString { Value : string }.

(** [tracepb.Span], with the three fields the policy reads; each is a
    pointer in the generated Go code. *)
Record Span : Set := mkSpan {
  Name : option TruncatableString;
  StartTime : option Timestamp;
  EndTime : option Timestamp
}.

(** One received batch: its [Spans] field is a [[]*tracepb.Span]. *)
Record Batch : Set := mkBatch { Spans : list (option Span) }.

(** Modelled from the spec: the declaration of [TraceData] is in another
    file of the package. The spec gives it an ordered sequence of batches,
    [ReceivedBatches], guarded by a lock of its own. *)
Record TraceData : Set := mkTraceData { ReceivedBatches : list Batch }.

(** Modelled from the spec: the enumeration [Decision] is declared in
    another file of the package; the spec names [Sampled], [NotSampled]
    and a pending state owned by the caller. *)
Inductive Decision : Set := Pending | Sampled | NotSampled.

(** [pdata.TraceID], an opaque 128-bit identifier. *)
Definition TraceID : Set := list Byte.byte.

(** Go [error] values: [errors.New msg] and the [*syntax.Error] that
    [regexp.Compile] returns, with its code and offending expression. *)
Inductive error : Set :=
| errorsNew (msg : string)
| syntaxError (code expr : string).

(** [tsToMicros]. [ts.Nanos/1000] is an int32 division, which truncates
    toward zero and cannot overflow; the product and the sum are int64. *)
Definition tsToMicros (ts : option Timestamp) : result Z :=
  t <- deref ts ;;
  Ok (Int64.add (Int64.mul (Seconds t) 1000000) (Z.quot (Nanos t) 1000)).

(** Local variables of [Evaluate] that live across the loops. *)
Record scanState : Set := mkScanState {
  matchingOperationFound : bool;
  spanCount : Z;
  minStartTime : Z;
  maxEndTime : Z
}.

Definition setFound (b : bool) (st : scanState) : scanState :=
  mkScanState b (spanCount st) (minStartTime st) (maxEndTime st).

Definition addCount (n : Z) (st : scanState) : scanState :=
  mkScanState (matchingOperationFound st) (spanCount st + n)
              (minStartTime st) (maxEndTime st).

Definition setMinStartTime (v : Z) (st : scanState) : scanState :=
  mkScanState (matchingOperationFound st) (spanCount st) v (maxEndTime st).

Definition setMaxEndTime (v : Z) (st : scanState) : scanState :=
  mkScanState (matchingOperationFound st) (spanCount st) (minStartTime st) v.

Definition initState : scanState := mkScanState false 0 0 0.

Section Policy.

(** The regular-expression engine ([regexp.Regexp], [regexp.Compile],
    the method [MatchString]) and the logger ([zap.Logger]) are
    libraries the package imports. *)
Context {Regexp Logger : Type}.
Variable Compile : string -> Regexp + error.
Variable MatchString : Regexp -> string -> bool.

Record spanPropertiesFilter : Type := mkSpanPropertiesFilter {
  operationRe : option Regexp;
  minDurationMicros : option Z;
  minNumberOfSpans : option Z;
  logger : option Logger
}.

(** [NewSpanPropertiesFilter]: the evaluator (nil on failure) and the
    error (nil on success). *)
Definition NewSpanPropertiesFilter (logger : option Logger)
    (operationNamePattern : option string)
    (minDurationMicros : option Z) (minNumberOfSpans : option Z)
  : option spanPropertiesFilter * option error :=
  let compiled : option Regexp + error :=
    match operationNamePattern with
    | Some pattern =>
        match Compile pattern with
        | inl re => inl (Some re)
        | inr err => inr err
        end
    | None => inl None
    end in
  match compiled with
  | inr err => (None, Some err)
  | inl operationRe =>
      if isNil operationNamePattern && isNil minDurationMicros
         && isNil minNumberOfSpans
      then (None, Some (errorsNew "at least one property must be defined"))
      else (Some (mkSpanPropertiesFilter operationRe minDurationMicros
                    minNumberOfSpans logger), None)
  end.

(** [OnLateArrivingSpans]; the receiver is returned as the method
    leaves it. *)
Definition OnLateArrivingSpans (df : spanPropertiesFilter)
    (earlyDecision : Decision) (spans : list (option Span))
  : spanPropertiesFilter * option error :=
  (df, None).

Definition EvaluateSecondChance (df : spanPropertiesFilter)
    (_ : TraceID) (trace : TraceData) : Decision * option error :=
  (NotSampled, None).

Definition OnDroppedSpans (df : spanPropertiesFilter)
    (_ : TraceID) (_ : TraceData) : Decision * option error :=
  (NotSampled, None).

(** First block of the inner loop body: the name is tested only while
    a pattern is configured and no span has matched yet. *)
Definition matchName (df : spanPropertiesFilter) (st : scanState)
    (span : Span) : result scanState :=
  match operationRe df with
  | Some re =>
      if negb (matchingOperationFound st) then
        name <- deref (Name span) ;;
        if MatchString re (Value name)
        then Ok (setFound true st)
        else Ok st
      else Ok st
  | None => Ok st
  end.

(** Second block of the inner loop body: the duration window. *)
Definition trackDuration (df : spanPropertiesFilter) (st : scanState)
    (span : Span) : result scanState :=
  match minDurationMicros df with
  | Some _ =>
      startTs <- tsToMicros (StartTime span) ;;
      endTs <- tsToMicros (EndTime span) ;;
      if minStartTime st =? 0 then
        Ok (setMaxEndTime endTs (setMinStartTime startTs st))
      else
        let st1 := if startTs <? minStartTime st
                   then setMinStartTime startTs st else st in
        let st2 := if endTs >? maxEndTime st1
                   then setMaxEndTime endTs st1 else st1 in
        Ok st2
  | None => Ok st
  end.

(** Body of the inner loop for one element of [batch.Spans]; a nil
    element is skipped. *)
Definition visitSpan (df : spanPropertiesFilter) (st : scanState)
    (span : option Span) : result scanState :=
  match span with
  | None => Ok st
  | Some span =>
      st1 <- matchName df st span ;;
      trackDuration df st1 span
  end.

(** [for _, span := range batch.Spans]. *)
Fixpoint rangeSpans (df : spanPropertiesFilter) (st : scanState)
    (spans : list (option Span)) : result scanState :=
  match spans with
  | [] => Ok st
  | span :: rest =>
      st' <- visitSpan df st span ;;
      rangeSpans df st' rest
  end.

(** [for _, batch := range batches]. The count of a batch is the length
    of its span list, added before the spans are visited. The count is
    an unbounded integer: it is at most the number of iterations the
    inner loop goes on to execute, so it stays below [2 ^ 63]. *)
Fixpoint rangeBatches (df : spanPropertiesFilter) (st : scanState)
    (batches : list Batch) : result scanState :=
  match batches with
  | [] => Ok st
  | batch :: rest =>
      let st0 := addCount (Z.of_nat (List.length (Spans batch))) st in
      st' <- rangeSpans df st0 (Spans batch) ;;
      rangeBatches df st' rest
  end.

(** The three conditions computed after the loops. *)
Definition operationNameConditionMet (df : spanPropertiesFilter)
    (st : scanState) : bool :=
  match operationRe df with
  | Some _ => matchingOperationFound st
  | None => true
  end.

Definition minDurationConditionMet (df : spanPropertiesFilter)
    (st : scanState) : bool :=
  match minDurationMicros df with
  | Some d =>
      (maxEndTime st >? minStartTime st)
      && (Int64.sub (maxEndTime st) (minStartTime st) >=? d)
  | None => true
  end.

Definition minSpanCountConditionMet (df : spanPropertiesFilter)
    (st : scanState) : bool :=
  match minNumberOfSpans df with
  | Some n => spanCount st >=? n
  | None => true
  end.

(** [Evaluate]. The batch list is read under the lock of the aggregate
    and scanned afterwards. *)
Definition Evaluate (df : spanPropertiesFilter) (_ : TraceID)
    (trace : TraceData) : result (Decision * option error) :=
  let batches := ReceivedBatches trace in
  st <- rangeBatches df initState batches ;;
  if minDurationConditionMet df st && operationNameConditionMet df st
     && minSpanCountConditionMet df st
  then Ok (Sampled, None)
  else Ok (NotSampled, None).

End Policy.

Arguments spanPropertiesFilter : clear implicits.
Arguments mkSpanPropertiesFilter {Regexp Logger} _ _ _ _.

(** ** Vocabulary of the properties *)

Definition fmap {A B : Type} (f : A -> B) (r : result A) : result B :=
  x <- r ;; Ok (f x).

Definition setSpanCount (n : Z) (st : scanState) : scanState :=
  mkScanState (matchingOperationFound st) n (minStartTime st) (maxEndTime st).

(** Every entry of every batch, in the order [Evaluate] visits them. *)
Definition allSpans (trace : TraceData) : list (option Span) :=
  List.concat (map Spans (ReceivedBatches trace)).

(** The non-nil entries of a span list. *)
Fixpoint presentSpans (spans : list (option Span)) : list Span :=
  match spans with
  | [] => []
  | Some span :: rest => span :: presentSpans rest
  | None :: rest => presentSpans rest
  end.

Definition entryCount (trace : TraceData) : Z :=
  Z.of_nat (List.length (allSpans trace)).

Definition nonNilCount (trace : TraceData) : Z :=
  Z.of_nat (List.length (presentSpans (allSpans trace))).

Definition nilCount (trace : TraceData) : Z :=
  Z.of_nat (List.length (filter isNil (allSpans trace))).

(** The aggregate with the nil entries of every batch removed. *)
Definition dropNil (trace : TraceData) : TraceData :=
  mkTraceData
    (map (fun batch => mkBatch (map Some (presentSpans (Spans batch))))
         (ReceivedBatches trace)).

(** [span] is a non-nil entry of some batch of [trace]. *)
Definition spanOf (trace : TraceData) (span : Span) : Prop :=
  exists batch,
    In batch (ReceivedBatches trace) /\ In (Some span) (Spans batch).

(** A span none of whose three pointer fields is nil. *)
Definition spanComplete (span : Span) : bool :=
  negb (isNil (Name span)) && negb (isNil (StartTime span))
  && negb (isNil (EndTime span)).

Definition entryComplete (entry : option Span) : bool :=
  match entry with
  | Some span => spanComplete span
  | None => true
  end.

(** Every non-nil span of the aggregate has a name, a start time and an
    end time. *)
Definition wellFormed (trace : TraceData) : Prop :=
  forallb entryComplete (allSpans trace) = true.

(** The microsecond value of a timestamp that is present. *)
Definition microsOf (ts : option Timestamp) : Z :=
  match tsToMicros ts with
  | Ok micros => micros
  | Panicked _ => 0
  end.

(** One step of the duration window, as the loop body updates
    [minStartTime] and [maxEndTime]. *)
Definition widen (w : Z * Z) (span : Span) : Z * Z :=
  let startTs := microsOf (StartTime span) in
  let endTs := microsOf (EndTime span) in
  if fst w =? 0 then (startTs, endTs)
  else ((if startTs <? fst w then startTs else fst w),
        (if endTs >? snd w then endTs else snd w)).

Definition durationWindow (trace : TraceData) : Z * Z :=
  fold_left widen (presentSpans (allSpans trace)) (0, 0).

(** Earliest start and latest end of a non-empty list of spans. *)
Definition earliestStart (first : Span) (others : list Span) : Z :=
  fold_left Z.min (map (fun s => microsOf (StartTime s)) others)
            (microsOf (StartTime first)).

Definition latestEnd (first : Span) (others : list Span) : Z :=
  fold_left Z.max (map (fun s => microsOf (EndTime s)) others)
            (microsOf (EndTime first)).

Section Criteria.

Context {Regexp Logger : Type}.
Variable MatchString : Regexp -> string -> bool.

Definition nameMatches (re : Regexp) (span : Span) : bool :=
  match Name span with
  | Some name => MatchString re (Value name)
  | None => false
  end.

(** Some non-nil span of the list has a name the pattern matches. *)
Definition anyMatch (re : Regexp) (spans : list (option Span)) : bool :=
  existsb (nameMatches re) (presentSpans spans).

Definition operationNameCriterion (df : spanPropertiesFilter Regexp Logger)
    (trace : TraceData) : Prop :=
  match operationRe df with
  | Some re =>
      exists span name,
        spanOf trace span /\ Name span = Some name
        /\ MatchString re (Value name) = true
  | None => True
  end.

Definition minSpanCountCriterion (df : spanPropertiesFilter Regexp Logger)
    (trace : TraceData) : Prop :=
  match minNumberOfSpans df with
  | Some n => entryCount trace >= n
  | None => True
  end.

(** Closed form of the scan of a span list all of whose non-nil spans
    are complete: a match is found if one was found before or some
    span matches, the window is widened by every span, the count is
    left alone. *)
Definition opAny (df : spanPropertiesFilter Regexp Logger)
    (spans : list (option Span)) : bool :=
  match operationRe df with
  | Some re => anyMatch re spans
  | None => false
  end.

Definition windowAfter (df : spanPropertiesFilter Regexp Logger)
    (w : Z * Z) (spans : list (option Span)) : Z * Z :=
  match minDurationMicros df with
  | Some _ => fold_left widen (presentSpans spans) w
  | None => w
  end.

Definition scanResult (df : spanPropertiesFilter Regexp Logger)
    (st : scanState) (spans : list (option Span)) : scanState :=
  let w := windowAfter df (minStartTime st, maxEndTime st) spans in
  mkScanState (matchingOperationFound st || opAny df spans)
              (spanCount st) (fst w) (snd w).

(** The decision [Evaluate] takes from the variables the loops leave. *)
Definition verdict (df : spanPropertiesFilter Regexp Logger)
    (st : scanState) : Decision :=
  if minDurationConditionMet df st && operationNameConditionMet df st
     && minSpanCountConditionMet df st
  then Sampled else NotSampled.

(** The loops of [Evaluate] on the batches of an aggregate. *)
Definition scan (df : spanPropertiesFilter Regexp Logger)
    (trace : TraceData) : result scanState :=
  rangeBatches MatchString df initState (ReceivedBatches trace).

(** Calls a policy host makes on one policy instance. *)
Inductive Call : Type :=
| CallEvaluate (id : TraceID) (trace : TraceData)
| CallOnLateArrivingSpans (earlyDecision : Decision)
                          (spans : list (option Span))
| CallEvaluateSecondChance (id : TraceID) (trace : TraceData)
| CallOnDroppedSpans (id : TraceID) (trace : TraceData).

Inductive Response : Type :=
| Decided (r : result (Decision * option error))
| Notified (err : option error).

Definition isLateArrival (c : Call) : bool :=
  match c with
  | CallOnLateArrivingSpans _ _ => true
  | _ => false
  end.

(** One call on the instance: the instance afterwards and the answer.
    Only [OnLateArrivingSpans] is given the chance to update the
    instance; the other three methods do not assign through [df]. *)
Definition invoke (df : spanPropertiesFilter Regexp Logger) (c : Call)
  : spanPropertiesFilter Regexp Logger * Response :=
  match c with
  | CallEvaluate id trace => (df, Decided (Evaluate MatchString df id trace))
  | CallOnLateArrivingSpans early spans =>
      let (df', err) := OnLateArrivingSpans df early spans in
      (df', Notified err)
  | CallEvaluateSecondChance id trace =>
      (df, Decided (Ok (EvaluateSecondChance df id trace)))
  | CallOnDroppedSpans id trace =>
      (df, Decided (Ok (OnDroppedSpans df id trace)))
  end.

(** A sequence of calls, with the answers paired with their calls. *)
Fixpoint invokeAll (df : spanPropertiesFilter Regexp Logger)
    (calls : list Call)
  : spanPropertiesFilter Regexp Logger * list (Call * Response) :=
  match calls with
  | [] => (df, [])
  | c :: rest =>
      let (df1, r) := invoke df c in
      let (df2, rs) := invokeAll df1 rest in
      (df2, (c, r) :: rs)
  end.

Definition answersOfOthers (log : list (Call * Response))
  : list (Call * Response) :=
  filter (fun cr => negb (isLateArrival (fst cr))) log.

Definition answersOfLateArrivals (log : list (Call * Response))
  : list Response :=
  map snd (filter (fun cr => isLateArrival (fst cr)) log).

End Criteria.

(** ** A literal-only pattern engine

    Used to run the model on concrete inputs. A pattern without
    metacharacters matches the strings that contain it; any other pattern
    is rejected. *)

Module Literal.

Definition Regexp : Type := string.

Definition isMeta (c : ascii) : bool :=
  existsb (Ascii.eqb c) (list_ascii_of_string "\.+*?()|[]{}^$").

Definition Compile (expr : string) : Regexp + error :=
  if existsb isMeta (list_ascii_of_string expr)
  then inr (syntaxError (if String.eqb expr "(" then "missing closing )"
                         else "not a literal") expr)
  else inl expr.

Fixpoint contains (needle hay : string) : bool :=
  String.prefix needle hay
  || match hay with
     | EmptyString => false
     | String _ rest => contains needle rest
     end.

Definition MatchString (re : Regexp) (s : string) : bool := contains re s.

Definition policy (operationRe : option Regexp) (minDurationMicros : option Z)
    (minNumberOfSpans : option Z) : spanPropertiesFilter Regexp unit :=
  mkSpanPropertiesFilter operationRe minDurationMicros minNumberOfSpans None.

End Literal.

(** ** Concrete aggregates *)

Definition atMicros (us : Z) : option Timestamp :=
  Some (mkTimestamp (us / 1000000) ((us mod 1000000) * 1000)).

Definition namedSpan (name : string) (startUs endUs : Z) : Span :=
  mkSpan (Some (mkTruncatableString name)) (atMicros startUs) (atMicros endUs).

Definition noID : TraceID := [].

(** A policy with the three criteria configured. *)
Definition samplePolicy : spanPropertiesFilter Literal.Regexp unit :=
  Literal.policy (Some "GET") (Some 250) (Some 2).

(** Two batches of one span each: 0 to 100 and 50 to 300 microseconds. *)
Definition twoBatchTrace : TraceData :=
  mkTraceData [ mkBatch [Some (namedSpan "GET /a" 0 100)];
                mkBatch [Some (namedSpan "GET /b" 50 300)] ].

(** One batch holding a nil entry and one span. *)
Definition nilEntryTrace : TraceData :=
  mkTraceData [ mkBatch [None; Some (namedSpan "GET /a" 10 50)] ].

(** A span whose [Name] is nil, and a span whose [StartTime] is nil. *)
Definition namelessSpan : Span := mkSpan None (atMicros 20) (atMicros 60).

Definition startlessSpan : Span :=
  mkSpan (Some (mkTruncatableString "GET /a")) None (atMicros 60).

(** A span that matches ["GET"] followed by the span whose name is nil. *)
Definition matchThenNamelessTrace : TraceData :=
  mkTraceData [ mkBatch [Some (namedSpan "GET /a" 10 50); Some namelessSpan] ].

(** The span whose name is nil, with nothing before it. *)
Definition namelessTrace : TraceData :=
  mkTraceData [ mkBatch [Some namelessSpan] ].

(** The span without a start time. *)
Definition startlessTrace : TraceData :=
  mkTraceData [ mkBatch [Some startlessSpan] ].

(** ** Vocabulary of the further properties *)

(** A threshold that is absent, or present and not above the other. *)
Definition droppedOrLowered (a b : option Z) : Prop :=
  match a, b with
  | None, _ => True
  | Some x, Some y => x <= y
  | Some _, None => False
  end.

Section Components.

Context {Regexp Logger : Type}.
Variable MatchString : Regexp -> string -> bool.

(** The first block of the loop body on the variable it updates: the new
    value of [matchingOperationFound], or nothing when a nil [Name] is
    read. *)
Definition nameStep (re : option Regexp) (found : bool) (span : Span)
  : option bool :=
  match re with
  | Some re =>
      if negb found then
        match Name span with
        | Some name => Some (MatchString re (Value name))
        | None => None
        end
      else Some found
  | None => Some found
  end.

Fixpoint nameScan (re : option Regexp) (found : bool)
    (spans : list (option Span)) : option bool :=
  match spans with
  | [] => Some found
  | None :: rest => nameScan re found rest
  | Some span :: rest =>
      match nameStep re found span with
      | Some found' => nameScan re found' rest
      | None => None
      end
  end.

(** The second block of the loop body on the two variables it updates,
    or nothing when a nil timestamp is read. *)
Definition timeStep (configured : bool) (w : Z * Z) (span : Span)
  : option (Z * Z) :=
  if configured then
    if isNil (StartTime span) || isNil (EndTime span) then None
    else Some (widen w span)
  else Some w.

Fixpoint timeScan (configured : bool) (w : Z * Z)
    (spans : list (option Span)) : option (Z * Z) :=
  match spans with
  | [] => Some w
  | None :: rest => timeScan configured w rest
  | Some span :: rest =>
      match timeStep configured w span with
      | Some w' => timeScan configured w' rest
      | None => None
      end
  end.

(** What the two scans leave, put together with the count. *)
Definition joinScans (count : Z) (found : option bool) (w : option (Z * Z))
  : result scanState :=
  match found, w with
  | Some f, Some w => Ok (mkScanState f count (fst w) (snd w))
  | _, _ => Panicked NilDereference
  end.

(** [df'] asks for no more than [df]: the pattern is the same or absent,
    each threshold is absent or not above that of [df]. *)
Definition relaxes (df' df : spanPropertiesFilter Regexp Logger) : Prop :=
  (operationRe df' = None \/ operationRe df' = operationRe df)
  /\ droppedOrLowered (minDurationMicros df') (minDurationMicros df)
  /\ droppedOrLowered (minNumberOfSpans df') (minNumberOfSpans df).

End Components.

(** Spans of 10 to 100 and 50 to 300 microseconds in one batch, and the
    second span of [twoBatchTrace] alone. *)
Definition lateStartTrace : TraceData :=
  mkTraceData [ mkBatch [Some (namedSpan "GET /a" 10 100);
                         Some (namedSpan "GET /b" 50 300)] ].

Definition secondSpanTrace : TraceData :=
  mkTraceData [ mkBatch [Some (namedSpan "GET /b" 50 300)] ].

(** The spans of [twoBatchTrace] in one batch, and in the other order. *)
Definition oneBatchTrace : TraceData :=
  mkTraceData [ mkBatch [Some (namedSpan "GET /a" 0 100);
                         Some (namedSpan "GET /b" 50 300)] ].

Definition swappedTrace : TraceData :=
  mkTraceData [ mkBatch [Some (namedSpan "GET /b" 50 300)];
                mkBatch [Some (namedSpan "GET /a" 0 100)] ].

(** ** The criteria in the words of the specification *)

(** The microsecond count of a timestamp as the specification gives it:
    seconds times 1,000,000 plus the nanoseconds divided by 1,000,
    rounded down. *)
Definition specMicros (t : Timestamp) : Z :=
  Seconds t * 1000000 + Nanos t / 1000.

Definition specMicrosOf (ts : option Timestamp) : Z :=
  match ts with
  | Some t => specMicros t
  | None => 0
  end.

(** The least start and the greatest end over all spans. *)
Definition specMinStart (first : Span) (others : list Span) : Z :=
  fold_left Z.min (map (fun s => specMicrosOf (StartTime s)) others)
            (specMicrosOf (StartTime first)).

Definition specMaxEnd (first : Span) (others : list Span) : Z :=
  fold_left Z.max (map (fun s => specMicrosOf (EndTime s)) others)
            (specMicrosOf (EndTime first)).

(** The duration criterion of the specification: the greatest end is
    after the least start, and their difference reaches the threshold.
    Without a span there is no timing data and the criterion fails. *)
Definition specDurationCriterion (d : Z) (spans : list Span) : Prop :=
  match spans with
  | [] => False
  | first :: others =>
      specMaxEnd first others > specMinStart first others
      /\ specMaxEnd first others - specMinStart first others >= d
  end.

(** A timestamp whose microsecond count fits in 64 bits whatever its
    32-bit non-negative nanoseconds are. *)
Definition tsInRange (t : Timestamp) : bool :=
  (-9223372036854 <=? Seconds t) && (Seconds t <=? 9223372036852)
  && (0 <=? Nanos t) && (Nanos t <=? 2147483647).

(** A span with both timestamps, in range, that starts after
    microsecond 0. *)
Definition spanTimed (span : Span) : bool :=
  match StartTime span, EndTime span with
  | Some s, Some e => tsInRange s && tsInRange e && (0 <? specMicros s)
  | _, _ => false
  end.

Definition entryTimed (entry : option Span) : bool :=
  match entry with
  | Some span => spanTimed span
  | None => true
  end.

Definition timedTrace (trace : TraceData) : Prop :=
  forallb entryTimed (allSpans trace) = true.

Definition entryNamed (entry : option Span) : bool :=
  match entry with
  | Some span => negb (isNil (Name span))
  | None => true
  end.

(** Every non-nil span of the aggregate has a name. *)
Definition namedTrace (trace : TraceData) : Prop :=
  forallb entryNamed (allSpans trace) = true.

Section SpecCriteria.

Context {Regexp Logger : Type}.

Definition specMinDurationCriterion (df : spanPropertiesFilter Regexp Logger)
    (trace : TraceData) : Prop :=
  match minDurationMicros df with
  | Some d => specDurationCriterion d (presentSpans (allSpans trace))
  | None => True
  end.

End SpecCriteria.

(** The span whose name is nil, followed by a span that matches ["GET"]. *)
Definition namelessThenMatchTrace : TraceData :=
  mkTraceData [ mkBatch [Some namelessSpan; Some (namedSpan "GET /a" 10 50)] ].

Arguments Int64.wrap : simpl never.
Arguments Int64.add : simpl never.
Arguments Int64.sub : simpl never.
Arguments Int64.mul : simpl never.

(** ** Facts on 64-bit arithmetic *)

Lemma Int64_wrap_in_range z : Int64.in_range (Int64.wrap z).
Proof.
  unfold Int64.in_range, Int64.wrap, Int64.min_signed, Int64.max_signed.
  pose proof (Z.mod_pos_bound (z + 2 ^ 63) (2 ^ 64) ltac:(lia)). lia.
Qed.

Lemma Int64_wrap_small z : Int64.in_range z -> Int64.wrap z = z.
Proof.
  unfold Int64.in_range, Int64.wrap, Int64.min_signed, Int64.max_signed.
  intros H. rewrite Z.mod_small; lia.
Qed.

Lemma Int64_wrap_add_l a b : Int64.wrap (Int64.wrap a + b) = Int64.wrap (a + b).
Proof.
  unfold Int64.wrap.
  replace ((a + 2 ^ 63) mod 2 ^ 64 - 2 ^ 63 + b + 2 ^ 63)
    with ((a + 2 ^ 63) mod 2 ^ 64 + b) by lia.
  rewrite Z.add_mod_idemp_l by lia.
  f_equal. f_equal. lia.
Qed.

(** The conversion computes the microsecond count modulo [2 ^ 64]. *)
Lemma tsToMicros_wrap s n :
  0 <= n ->
  tsToMicros (Some (mkTimestamp s n))
  = Ok (Int64.wrap (s * 1000000 + n / 1000)).
Proof.
  intros Hn. unfold tsToMicros, Int64.add, Int64.mul.
  cbn [deref bind Seconds Nanos].
  rewrite Int64_wrap_add_l, Z.quot_div_nonneg by lia. reflexivity.
Qed.

Lemma tsToMicros_present ts :
  isNil ts = false -> tsToMicros ts = Ok (microsOf ts).
Proof. destruct ts; [reflexivity | discriminate]. Qed.

(** ** Facts on the result monad *)

Lemma fmap_compose {A B C : Type} (f : A -> B) (g : B -> C) (r : result A) :
  fmap g (fmap f r) = fmap (fun a => g (f a)) r.
Proof. destruct r; reflexivity. Qed.

Lemma fmap_ext {A B : Type} (f g : A -> B) (r : result A) :
  (forall a, f a = g a) -> fmap f r = fmap g r.
Proof. intros E. destruct r; cbn; [rewrite E|]; reflexivity. Qed.

Lemma bind_fmap {A B C : Type} (f : A -> B) (r : result A) (k : B -> result C) :
  bind (fmap f r) k = bind r (fun a => k (f a)).
Proof. destruct r; reflexivity. Qed.

Lemma addCount_addCount n m st :
  addCount m (addCount n st) = addCount (n + m) st.
Proof. unfold addCount; cbn. f_equal. lia. Qed.

(** ** Facts on span lists *)

Lemma presentSpans_app l1 l2 :
  presentSpans (l1 ++ l2) = (presentSpans l1 ++ presentSpans l2)%list.
Proof.
  induction l1 as [|[span|] l1 IH]; cbn;
    [reflexivity | f_equal; exact IH | exact IH].
Qed.

Lemma In_presentSpans span l : In span (presentSpans l) <-> In (Some span) l.
Proof.
  induction l as [|[s|] l IH]; cbn.
  - tauto.
  - rewrite IH. split; intros [H|H]; auto; left; congruence.
  - rewrite IH. split; [auto | intros [H|H]; [discriminate | exact H]].
Qed.

Lemma length_entries l :
  Z.of_nat (List.length l)
  = Z.of_nat (List.length (presentSpans l))
    + Z.of_nat (List.length (filter isNil l)).
Proof.
  induction l as [|[s|] l IH]; cbn [presentSpans filter isNil List.length]; lia.
Qed.

Lemma spanOf_allSpans trace span :
  spanOf trace span <-> In (Some span) (allSpans trace).
Proof.
  unfold spanOf, allSpans. rewrite in_concat. split.
  - intros (batch & Hb & Hs). exists (Spans batch). split; [|exact Hs].
    apply in_map. exact Hb.
  - intros (l & Hl & Hs). apply in_map_iff in Hl.
    destruct Hl as (batch & <- & Hb).
    exists batch. split; assumption.
Qed.

Lemma allSpans_dropNil trace :
  allSpans (dropNil trace) = map Some (presentSpans (allSpans trace)).
Proof.
  unfold allSpans, dropNil. cbn [ReceivedBatches].
  induction (ReceivedBatches trace) as [|batch rest IH]; cbn; [reflexivity|].
  rewrite IH, presentSpans_app, map_app. reflexivity.
Qed.

Section PolicyFacts.

Context {Regexp Logger : Type}.
Variable MatchString : Regexp -> string -> bool.

Implicit Types (df : spanPropertiesFilter Regexp Logger) (st : scanState).

(** *** The count is independent of the rest of the scan *)

Lemma matchName_addCount df n st span :
  matchName MatchString df (addCount n st) span
  = fmap (addCount n) (matchName MatchString df st span).
Proof.
  unfold matchName. destruct (operationRe df) as [re|]; [|reflexivity].
  cbn [addCount matchingOperationFound].
  destruct (matchingOperationFound st); [reflexivity|]. cbn [negb].
  destruct (Name span) as [name|]; [|reflexivity]. cbn [deref bind].
  destruct (MatchString re (Value name)); reflexivity.
Qed.

Lemma trackDuration_addCount df n st span :
  trackDuration df (addCount n st) span
  = fmap (addCount n) (trackDuration df st span).
Proof.
  unfold trackDuration. destruct (minDurationMicros df); [|reflexivity].
  destruct (tsToMicros (StartTime span)) as [startTs|]; [|reflexivity].
  destruct (tsToMicros (EndTime span)) as [endTs|]; [|reflexivity].
  destruct st as [f c lo hi]. cbn.
  destruct (lo =? 0); [reflexivity|].
  destruct (startTs <? lo); cbn; destruct (endTs >? hi); reflexivity.
Qed.

Lemma visitSpan_addCount df n st span :
  visitSpan MatchString df (addCount n st) span
  = fmap (addCount n) (visitSpan MatchString df st span).
Proof.
  destruct span as [span|]; [|reflexivity]. cbn [visitSpan].
  rewrite matchName_addCount, bind_fmap.
  destruct (matchName MatchString df st span) as [st1|]; [|reflexivity].
  cbn [bind]. apply trackDuration_addCount.
Qed.

Lemma rangeSpans_addCount df n spans : forall st,
  rangeSpans MatchString df (addCount n st) spans
  = fmap (addCount n) (rangeSpans MatchString df st spans).
Proof.
  induction spans as [|span rest IH]; intros st; [reflexivity|].
  cbn [rangeSpans]. rewrite visitSpan_addCount, bind_fmap.
  destruct (visitSpan MatchString df st span) as [st1|]; [|reflexivity].
  cbn [bind]. apply IH.
Qed.

Lemma rangeSpans_app df l1 l2 : forall st,
  rangeSpans MatchString df st (l1 ++ l2)
  = (st' <- rangeSpans MatchString df st l1 ;;
     rangeSpans MatchString df st' l2).
Proof.
  induction l1 as [|span rest IH]; intros st; [reflexivity|].
  cbn [rangeSpans app].
  destruct (visitSpan MatchString df st span) as [st1|]; [|reflexivity].
  cbn [bind]. apply IH.
Qed.

(** The nested loops visit the concatenation of the batches; the count
    grows by the number of entries. *)
Lemma rangeBatches_flatten df batches : forall st,
  rangeBatches MatchString df st batches
  = fmap (addCount (Z.of_nat (List.length (List.concat (map Spans batches)))))
         (rangeSpans MatchString df st (List.concat (map Spans batches))).
Proof.
  induction batches as [|batch rest IH]; intros st.
  - cbn. destruct st; unfold addCount; cbn. now rewrite Z.add_0_r.
  - cbn [rangeBatches map List.concat].
    rewrite rangeSpans_addCount, bind_fmap, rangeSpans_app.
    destruct (rangeSpans MatchString df st (Spans batch)) as [st1|];
      [|reflexivity].
    cbn [bind]. rewrite IH, rangeSpans_addCount, fmap_compose.
    apply fmap_ext. intros a. rewrite addCount_addCount.
    f_equal. rewrite length_app. lia.
Qed.

(** Nil entries leave the scan of a span list as it is. *)
Lemma rangeSpans_presentSpans df spans : forall st,
  rangeSpans MatchString df st spans
  = rangeSpans MatchString df st (map Some (presentSpans spans)).
Proof.
  induction spans as [|[span|] rest IH]; intros st; [reflexivity| |].
  - cbn [presentSpans map rangeSpans].
    destruct (visitSpan MatchString df st (Some span)) as [st1|];
      [|reflexivity].
    cbn [bind]. apply IH.
  - cbn [presentSpans rangeSpans visitSpan bind]. apply IH.
Qed.

(** *** Closed form of the scan on complete spans *)

Lemma opAny_app df l1 l2 :
  opAny MatchString df (l1 ++ l2)
  = opAny MatchString df l1 || opAny MatchString df l2.
Proof.
  unfold opAny, anyMatch. destruct (operationRe df); [|reflexivity].
  now rewrite presentSpans_app, existsb_app.
Qed.

Lemma windowAfter_app df w l1 l2 :
  windowAfter df w (l1 ++ l2) = windowAfter df (windowAfter df w l1) l2.
Proof.
  unfold windowAfter. destruct (minDurationMicros df); [|reflexivity].
  now rewrite presentSpans_app, fold_left_app.
Qed.

Lemma scanResult_app df st l1 l2 :
  scanResult MatchString df (scanResult MatchString df st l1) l2
  = scanResult MatchString df st (l1 ++ l2).
Proof.
  unfold scanResult.
  cbn [matchingOperationFound spanCount minStartTime maxEndTime].
  rewrite <- surjective_pairing, <- windowAfter_app, opAny_app, orb_assoc.
  reflexivity.
Qed.

Lemma visitSpan_complete df st span :
  spanComplete span = true ->
  visitSpan MatchString df st (Some span)
  = Ok (scanResult MatchString df st [Some span]).
Proof.
  destruct st as [f c lo hi], span as [[name|] [start|] [stop|]];
    try discriminate; intros _.
  unfold visitSpan, matchName, trackDuration, scanResult, opAny, windowAfter,
    anyMatch, nameMatches, widen.
  cbn [matchingOperationFound spanCount minStartTime maxEndTime Name StartTime
       EndTime deref bind presentSpans existsb fold_left fst snd].
  destruct (operationRe df) as [re|], f; cbn [negb orb bind];
    try destruct (MatchString re (Value name)); cbn [orb bind setFound
      matchingOperationFound spanCount minStartTime maxEndTime];
    destruct (minDurationMicros df); cbn [fst snd]; try reflexivity;
    unfold microsOf, tsToMicros; cbn [deref bind];
    destruct (lo =? 0); cbn; try reflexivity;
    destruct (_ <? lo); cbn; destruct (_ >? hi); reflexivity.
Qed.

Lemma rangeSpans_complete df spans : forall st,
  forallb entryComplete spans = true ->
  rangeSpans MatchString df st spans
  = Ok (scanResult MatchString df st spans).
Proof.
  induction spans as [|[span|] rest IH]; intros st Hwf.
  - unfold scanResult, opAny, windowAfter, anyMatch. cbn.
    destruct st as [f c lo hi]; cbn.
    destruct (operationRe df), (minDurationMicros df);
      now rewrite orb_false_r.
  - cbn [forallb entryComplete] in Hwf. apply andb_true_iff in Hwf.
    destruct Hwf as [Hspan Hrest].
    cbn [rangeSpans]. rewrite (visitSpan_complete _ _ _ Hspan). cbn [bind].
    rewrite (IH _ Hrest), scanResult_app. reflexivity.
  - cbn [forallb entryComplete andb] in Hwf.
    cbn [rangeSpans visitSpan bind]. rewrite (IH _ Hwf). reflexivity.
Qed.

Lemma scan_complete df trace :
  wellFormed trace ->
  scan MatchString df trace
  = Ok (addCount (entryCount trace)
          (scanResult MatchString df initState (allSpans trace))).
Proof.
  intros Hwf. unfold scan. rewrite rangeBatches_flatten.
  fold (allSpans trace). rewrite (rangeSpans_complete _ _ _ Hwf).
  reflexivity.
Qed.

(** *** The three conditions and the three criteria *)

Lemma anyMatch_spanOf re trace :
  anyMatch MatchString re (allSpans trace) = true
  <-> exists span name,
        spanOf trace span /\ Name span = Some name
        /\ MatchString re (Value name) = true.
Proof.
  unfold anyMatch. rewrite existsb_exists. split.
  - intros (span & Hin & Hm). unfold nameMatches in Hm.
    destruct (Name span) as [name|] eqn:E; [|discriminate].
    exists span, name. rewrite spanOf_allSpans, <- In_presentSpans. auto.
  - intros (span & name & Hin & E & Hm). exists span.
    rewrite In_presentSpans, <- spanOf_allSpans. split; [exact Hin|].
    unfold nameMatches. now rewrite E.
Qed.

Lemma Evaluate_scan df id trace :
  Evaluate MatchString df id trace
  = fmap (fun st => (verdict df st, None)) (scan MatchString df trace).
Proof.
  unfold Evaluate, scan, fmap, verdict.
  destruct (rangeBatches MatchString df initState (ReceivedBatches trace))
    as [st|]; [|reflexivity].
  cbn [bind].
  destruct (minDurationConditionMet df st && operationNameConditionMet df st
            && minSpanCountConditionMet df st); reflexivity.
Qed.

Lemma Evaluate_complete df id trace :
  wellFormed trace ->
  Evaluate MatchString df id trace
  = Ok (verdict df (addCount (entryCount trace)
                      (scanResult MatchString df initState (allSpans trace))),
        None).
Proof.
  intros Hwf. rewrite Evaluate_scan, (scan_complete _ _ Hwf). reflexivity.
Qed.

(** *** Scans that cannot or must panic *)

Lemma trackDuration_found df st span st' :
  trackDuration df st span = Ok st' ->
  matchingOperationFound st' = matchingOperationFound st.
Proof.
  unfold trackDuration. destruct (minDurationMicros df).
  - destruct (tsToMicros (StartTime span)) as [startTs|]; [|discriminate].
    destruct (tsToMicros (EndTime span)) as [endTs|]; [|discriminate].
    cbn [bind]. destruct st as [f c lo hi]. cbn.
    destruct (lo =? 0); [intros [= <-]; reflexivity|].
    destruct (startTs <? lo); cbn; destruct (endTs >? hi);
      intros [= <-]; reflexivity.
  - intros [= <-]. reflexivity.
Qed.

Lemma rangeSpans_no_match df re pre :
  operationRe df = Some re ->
  anyMatch MatchString re pre = false ->
  forall st st',
    matchingOperationFound st = false ->
    rangeSpans MatchString df st pre = Ok st' ->
    matchingOperationFound st' = false.
Proof.
  intros Hre. induction pre as [|[span|] rest IH]; intros Hno st st' Hf.
  - intros [= <-]. exact Hf.
  - unfold anyMatch in Hno. cbn [presentSpans existsb] in Hno.
    apply orb_false_iff in Hno. destruct Hno as [Hspan Hrest].
    cbn [rangeSpans visitSpan]. unfold matchName. rewrite Hre, Hf. cbn [negb].
    unfold nameMatches in Hspan.
    destruct (Name span) as [name|]; [|discriminate]. cbn [deref bind].
    rewrite Hspan. cbn [bind].
    destruct (trackDuration df st span) as [st1|] eqn:E; [|discriminate].
    cbn [bind]. apply (IH Hrest).
    rewrite (trackDuration_found _ _ _ _ E). exact Hf.
  - cbn [rangeSpans visitSpan bind]. apply (IH Hno). exact Hf.
Qed.

Lemma rangeSpans_nil_name df re pre span post :
  operationRe df = Some re ->
  Name span = None ->
  anyMatch MatchString re pre = false ->
  rangeSpans MatchString df initState (pre ++ Some span :: post)
  = Panicked NilDereference.
Proof.
  intros Hre Hname Hno. rewrite rangeSpans_app.
  destruct (rangeSpans MatchString df initState pre) as [st|[]] eqn:E;
    [|reflexivity].
  cbn [bind rangeSpans visitSpan]. unfold matchName.
  rewrite Hre, Hname.
  rewrite (rangeSpans_no_match _ _ _ Hre Hno initState st eq_refl E).
  reflexivity.
Qed.

Lemma rangeSpans_nil_time df d pre span post :
  minDurationMicros df = Some d ->
  isNil (StartTime span) || isNil (EndTime span) = true ->
  rangeSpans MatchString df initState (pre ++ Some span :: post)
  = Panicked NilDereference.
Proof.
  intros Hd Hnil. rewrite rangeSpans_app.
  destruct (rangeSpans MatchString df initState pre) as [st|[]];
    [|reflexivity].
  cbn [bind rangeSpans visitSpan].
  destruct (matchName MatchString df st span) as [st1|[]]; [|reflexivity].
  cbn [bind]. unfold trackDuration. rewrite Hd.
  destruct (StartTime span) as [start|]; [|reflexivity].
  destruct (EndTime span) as [stop|]; [discriminate|reflexivity].
Qed.

Lemma rangeSpans_unconfigured df spans st :
  operationRe df = None ->
  minDurationMicros df = None ->
  rangeSpans MatchString df st spans = Ok st.
Proof.
  intros Hre Hd. induction spans as [|[span|] rest IH]; [reflexivity| |].
  - cbn [rangeSpans visitSpan]. unfold matchName, trackDuration.
    rewrite Hre, Hd. exact IH.
  - exact IH.
Qed.

Lemma trackDuration_spanCount df st span st' :
  trackDuration df st span = Ok st' -> spanCount st' = spanCount st.
Proof.
  unfold trackDuration. destruct (minDurationMicros df).
  - destruct (tsToMicros (StartTime span)) as [startTs|]; [|discriminate].
    destruct (tsToMicros (EndTime span)) as [endTs|]; [|discriminate].
    cbn [bind]. destruct st as [f c lo hi]. cbn.
    destruct (lo =? 0); [intros [= <-]; reflexivity|].
    destruct (startTs <? lo); cbn; destruct (endTs >? hi);
      intros [= <-]; reflexivity.
  - intros [= <-]. reflexivity.
Qed.

Lemma matchName_spanCount df st span st' :
  matchName MatchString df st span = Ok st' -> spanCount st' = spanCount st.
Proof.
  unfold matchName. destruct (operationRe df) as [re|];
    [|intros [= <-]; reflexivity].
  destruct (negb (matchingOperationFound st)); [|intros [= <-]; reflexivity].
  destruct (Name span) as [name|]; [|discriminate]. cbn [deref bind].
  destruct (MatchString re (Value name)); intros [= <-]; reflexivity.
Qed.

(** The inner loop leaves the count alone. *)
Lemma rangeSpans_spanCount df spans : forall st st',
  rangeSpans MatchString df st spans = Ok st' -> spanCount st' = spanCount st.
Proof.
  induction spans as [|[span|] rest IH]; intros st st'.
  - intros [= <-]. reflexivity.
  - cbn [rangeSpans visitSpan].
    destruct (matchName MatchString df st span) as [st1|] eqn:E1;
      [|discriminate].
    cbn [bind].
    destruct (trackDuration df st1 span) as [st2|] eqn:E2; [|discriminate].
    cbn [bind]. intros H. rewrite (IH _ _ H).
    rewrite (trackDuration_spanCount _ _ _ _ E2).
    apply (matchName_spanCount _ _ _ _ E1).
  - cbn [rangeSpans visitSpan bind]. apply IH.
Qed.

(** *** The window away from the sentinel *)

(** While no start time is zero, the window is the earliest start and
    the latest end. *)
Lemma fold_widen_nonzero others : forall w,
  fst w <> 0 ->
  Forall (fun s => microsOf (StartTime s) <> 0) others ->
  fold_left widen others w
  = (fold_left Z.min (map (fun s => microsOf (StartTime s)) others) (fst w),
     fold_left Z.max (map (fun s => microsOf (EndTime s)) others) (snd w)).
Proof.
  induction others as [|s rest IH]; intros [lo hi] Hlo Hall.
  - reflexivity.
  - inversion Hall as [|? ? Hs Hrest]; subst. cbn [fold_left map fst snd] in *.
    assert (E : widen (lo, hi) s
                = (Z.min lo (microsOf (StartTime s)),
                   Z.max hi (microsOf (EndTime s)))).
    { unfold widen. cbn [fst snd].
      destruct (Z.eqb_spec lo 0); [contradiction|].
      f_equal.
      - destruct (Z.ltb_spec (microsOf (StartTime s)) lo); lia.
      - rewrite Z.gtb_ltb.
        destruct (Z.ltb_spec hi (microsOf (EndTime s))); lia. }
    rewrite E, IH; [reflexivity | cbn [fst]; lia | exact Hrest].
Qed.

Lemma fold_widen_global first others :
  Forall (fun s => microsOf (StartTime s) <> 0) (first :: others) ->
  fold_left widen (first :: others) (0, 0)
  = (earliestStart first others, latestEnd first others).
Proof.
  intros Hall. inversion Hall as [|? ? Hfirst Hothers]; subst.
  cbn [fold_left]. unfold widen at 2. cbn [fst Z.eqb].
  rewrite fold_widen_nonzero by assumption. reflexivity.
Qed.

Lemma durationWindow_global trace first others :
  presentSpans (allSpans trace) = first :: others ->
  Forall (fun s => microsOf (StartTime s) <> 0) (first :: others) ->
  durationWindow trace = (earliestStart first others, latestEnd first others).
Proof.
  intros Hspans Hall. unfold durationWindow. rewrite Hspans.
  apply fold_widen_global, Hall.
Qed.

(** ** Properties of the policy *)

Variable Compile : string -> Regexp + error.

(** C2, as the code has it: nil entries are skipped by the scan (they
    are tested neither for the name nor for the duration, and they
    cannot make [Evaluate] panic), yet they are counted. [Evaluate]
    answers as the scan of the aggregate without its nil entries does,
    with [spanCount] set to the number of entries of all batches, which
    is the number of non-nil spans plus the number of nil entries. *)
Theorem Evaluate_counts_every_entry df id trace :
  Evaluate MatchString df id trace
  = fmap (fun st => (verdict df (setSpanCount (entryCount trace) st), None))
         (scan MatchString df (dropNil trace))
  /\ fmap spanCount (scan MatchString df trace)
     = fmap (fun _ => entryCount trace) (scan MatchString df (dropNil trace))
  /\ entryCount trace = nonNilCount trace + nilCount trace.
Proof.
  assert (E : scan MatchString df trace
              = fmap (setSpanCount (entryCount trace))
                     (scan MatchString df (dropNil trace))).
  { unfold scan. rewrite !rangeBatches_flatten.
    fold (allSpans trace) (allSpans (dropNil trace)).
    rewrite allSpans_dropNil, <- rangeSpans_presentSpans, fmap_compose.
    destruct (rangeSpans MatchString df initState (allSpans trace))
      as [st|] eqn:Est; [|reflexivity].
    apply rangeSpans_spanCount in Est. cbn [fmap bind]. f_equal.
    destruct st as [f c lo hi]. cbn in Est. subst c.
    unfold addCount, setSpanCount, entryCount. cbn. reflexivity. }
  split; [|split].
  - rewrite Evaluate_scan, E, fmap_compose. reflexivity.
  - rewrite E, fmap_compose. reflexivity.
  - apply length_entries.
Qed.

(** C4: the constructor fails, with no evaluator, exactly when the three
    criteria are all nil or the pattern does not compile; the error is
    then the configuration error or the error of the compilation. In
    every other case it returns an evaluator holding the compiled
    pattern and the two thresholds, and no error. *)
Theorem NewSpanPropertiesFilter_error_iff (logger : option Logger) pattern
    minDuration minSpans :
  let r :=
    NewSpanPropertiesFilter Compile logger pattern minDuration minSpans in
  let unset := pattern = None /\ minDuration = None /\ minSpans = None in
  let invalid := exists p err, pattern = Some p /\ Compile p = inr err in
  (snd r <> None <-> unset \/ invalid)
  /\ (snd r <> None -> fst r = None)
  /\ (unset ->
      r = (None, Some (errorsNew "at least one property must be defined")))
  /\ (forall p err, pattern = Some p -> Compile p = inr err ->
      r = (None, Some err))
  /\ (~ (unset \/ invalid) ->
      exists operationRe,
        r = (Some (mkSpanPropertiesFilter operationRe minDuration minSpans
                     logger), None)
        /\ match pattern with
           | Some p => exists re, operationRe = Some re /\ Compile p = inl re
           | None => operationRe = None
           end).
Proof.
  unfold NewSpanPropertiesFilter.
  destruct pattern as [p|]; [destruct (Compile p) as [re|err] eqn:E|];
    cbn [isNil andb]; cbv zeta.
  - cbn [fst snd]. split; [split|split; [|split; [|split]]].
    + congruence.
    + intros [(H & _)|(p' & err & [= <-] & H)]; congruence.
    + congruence.
    + intros (H & _). discriminate.
    + intros p' err [= <-] H. congruence.
    + intros _. exists (Some re). split; [reflexivity|]. exists re. now split.
  - cbn [fst snd]. split; [split|split; [|split; [|split]]].
    + intros _. right. exists p, err. now split.
    + discriminate.
    + reflexivity.
    + intros (H & _). discriminate.
    + intros p' err' [= <-] H. congruence.
    + intros H. contradiction H. right. exists p, err. now split.
  - destruct minDuration as [d|], minSpans as [n|]; cbn [isNil andb fst snd];
      (split; [split|split; [|split; [|split]]]);
      try congruence; try discriminate; try reflexivity;
      try (intros [(_ & H1 & H2)|(p & err & H & _)]; discriminate);
      try (intros (_ & H1 & H2); discriminate);
      try (intros _; exists None; split; reflexivity);
      try (intros _; left; repeat split);
      try (intros H; contradiction H; left; repeat split).
Qed.

(** C5: [EvaluateSecondChance] and [OnDroppedSpans] return [NotSampled]
    and a nil error for every policy, identifier and aggregate. *)
Theorem second_chance_and_dropped_NotSampled
    (df : spanPropertiesFilter Regexp Logger) id trace :
  EvaluateSecondChance df id trace = (NotSampled, None)
  /\ OnDroppedSpans df id trace = (NotSampled, None).
Proof. split; reflexivity. Qed.

Lemma invokeAll_instance calls : forall df,
  fst (invokeAll MatchString df calls) = df.
Proof.
  induction calls as [|c rest IH]; intros df; [reflexivity|].
  cbn [invokeAll].
  assert (E : invoke MatchString df c = (df, snd (invoke MatchString df c)))
    by (destruct c; reflexivity).
  rewrite E. specialize (IH df).
  destruct (invokeAll MatchString df rest) as [df2 rs]. exact IH.
Qed.

(** C6: [OnLateArrivingSpans] returns a nil error and the instance as it
    was. In any sequence of calls on one instance, every late-arrival
    notification answers nil, the instance at the end is the instance at
    the start, and the other calls ([Evaluate], [EvaluateSecondChance],
    [OnDroppedSpans]) answer as they do in the sequence without the
    notifications. *)
Theorem OnLateArrivingSpans_changes_nothing df calls :
  (forall earlyDecision spans,
      OnLateArrivingSpans df earlyDecision spans = (df, None))
  /\ fst (invokeAll MatchString df calls) = df
  /\ Forall (fun r => r = Notified None)
            (answersOfLateArrivals (snd (invokeAll MatchString df calls)))
  /\ answersOfOthers (snd (invokeAll MatchString df calls))
     = snd (invokeAll MatchString df
              (filter (fun c => negb (isLateArrival c)) calls)).
Proof.
  split; [reflexivity|]. split; [apply invokeAll_instance|].
  revert df. unfold answersOfLateArrivals, answersOfOthers.
  induction calls as [|c rest IH]; intros df.
  - split; [constructor | reflexivity].
  - destruct (IH df) as [IHl IHo].
    assert (E : invoke MatchString df c = (df, snd (invoke MatchString df c)))
      by (destruct c; reflexivity).
    destruct (isLateArrival c) eqn:Hc;
      cbn [invokeAll filter]; rewrite ?Hc; cbn [negb invokeAll]; rewrite E;
      destruct (invokeAll MatchString df rest) as [df2 rs];
      cbn [snd fst filter map] in *; rewrite Hc; cbn [negb map snd].
    + split; [|exact IHo]. constructor; [|exact IHl].
      destruct c; try discriminate. reflexivity.
    + split; [exact IHl|]. rewrite IHo.
      destruct (invokeAll MatchString df _) as [df3 rs3]. reflexivity.
Qed.

(** C8, as the code has it: with a pattern configured, [Evaluate] panics
    on a nil dereference at a non-nil span whose name is nil when no
    span before it in the scan matches the pattern (after a match the
    names are no longer read); with a minimum duration configured, it
    panics whenever some non-nil span lacks its start or its end time;
    and on an aggregate whose non-nil spans are complete it returns a
    decision and a nil error. *)
Theorem Evaluate_panics_or_returns df id trace :
  (forall re pre span post,
      operationRe df = Some re ->
      allSpans trace = (pre ++ Some span :: post)%list ->
      Name span = None ->
      anyMatch MatchString re pre = false ->
      Evaluate MatchString df id trace = Panicked NilDereference)
  /\ (forall d span,
      minDurationMicros df = Some d ->
      spanOf trace span ->
      isNil (StartTime span) || isNil (EndTime span) = true ->
      Evaluate MatchString df id trace = Panicked NilDereference)
  /\ (wellFormed trace ->
      exists decision,
        Evaluate MatchString df id trace = Ok (decision, None)).
Proof.
  split; [|split].
  - intros re pre span post Hre Hsplit Hname Hno.
    rewrite Evaluate_scan. unfold scan. rewrite rangeBatches_flatten.
    fold (allSpans trace). rewrite Hsplit.
    rewrite (rangeSpans_nil_name _ _ _ _ _ Hre Hname Hno). reflexivity.
  - intros d span Hd Hin Hnil. apply spanOf_allSpans, in_split in Hin.
    destruct Hin as (pre & post & Hsplit).
    rewrite Evaluate_scan. unfold scan. rewrite rangeBatches_flatten.
    fold (allSpans trace). rewrite Hsplit.
    rewrite (rangeSpans_nil_time _ _ _ _ _ Hd Hnil). reflexivity.
  - intros Hwf. rewrite (Evaluate_complete _ id _ Hwf). eexists. reflexivity.
Qed.

(** C9: with only the span count configured, and a threshold of zero or
    less, [Evaluate] returns [Sampled] on every aggregate, the one
    without batches included. *)
Theorem Evaluate_nonpositive_count_Sampled df id trace n :
  operationRe df = None ->
  minDurationMicros df = None ->
  minNumberOfSpans df = Some n ->
  n <= 0 ->
  Evaluate MatchString df id trace = Ok (Sampled, None)
  /\ Evaluate MatchString df id (mkTraceData []) = Ok (Sampled, None).
Proof.
  intros Hre Hd Hn Hle.
  assert (H : forall t, Evaluate MatchString df id t = Ok (Sampled, None)).
  { intros t. rewrite Evaluate_scan. unfold scan.
    rewrite rangeBatches_flatten, (rangeSpans_unconfigured _ _ _ Hre Hd).
    cbn [fmap bind]. unfold verdict, minDurationConditionMet,
      operationNameConditionMet, minSpanCountConditionMet.
    rewrite Hre, Hd, Hn. cbn [andb addCount spanCount initState].
    destruct (Z.geb_spec (0 + Z.of_nat (List.length
                (List.concat (map Spans (ReceivedBatches t))))) n);
      [reflexivity | lia]. }
  split; apply H.
Qed.

End PolicyFacts.

(** ** The conversion of timestamps *)

(** C7, as the code has it: for seconds [s] and nanoseconds [n >= 0] the
    conversion returns [s * 1000000 + n / 1000] (the quotient rounded
    down) reduced to a signed 64-bit integer; the result is exactly that
    sum whenever the sum fits in 64 bits, as it does for every 32-bit [n]
    and every [s] between -9223372036854 and 9223372036852. *)
Theorem tsToMicros_truncates s n :
  0 <= n ->
  tsToMicros (Some (mkTimestamp s n))
  = Ok (Int64.wrap (s * 1000000 + n / 1000))
  /\ (Int64.in_range (s * 1000000 + n / 1000) ->
      tsToMicros (Some (mkTimestamp s n)) = Ok (s * 1000000 + n / 1000))
  /\ (n <= 2147483647 -> -9223372036854 <= s <= 9223372036852 ->
      Int64.in_range (s * 1000000 + n / 1000)).
Proof.
  intros Hn. split; [|split].
  - apply tsToMicros_wrap, Hn.
  - intros Hr. rewrite tsToMicros_wrap, Int64_wrap_small by assumption.
    reflexivity.
  - intros Hmax Hs. unfold Int64.in_range, Int64.min_signed, Int64.max_signed.
    assert (0 <= n / 1000 < 2147484).
    { split; [apply Z.div_pos; lia|].
      apply Z.div_lt_upper_bound; lia. }
    lia.
Qed.

Lemma tsToMicros_truncates_witness :
  0 <= 1999
  /\ tsToMicros (Some (mkTimestamp 1 1999)) = Ok 1000001.
Proof.
  split; [lia|].
  apply (proj1 (proj2 (tsToMicros_truncates 1 1999 ltac:(lia)))).
  vm_compute. split; discriminate.
Defined.

(** Seconds that fit in an int64 whose microsecond count does not. *)
Lemma tsToMicros_overflow_counterexample :
  Int64.in_range 9223372036855
  /\ tsToMicros (Some (mkTimestamp 9223372036855 0))
     = Ok (-9223372036854551616)
  /\ tsToMicros (Some (mkTimestamp 9223372036855 0))
     <> Ok (9223372036855 * 1000000 + 0 / 1000).
Proof.
  split; [vm_compute; split; discriminate|].
  split; [reflexivity | vm_compute; discriminate].
Qed.

(** ** The aggregate of two batches *)

(** C1, on the code: the first span starts at 0, the value that also
    stands for a window not yet set, so the second span sets the window
    anew: the window is 50 to 300 where the earliest start is 0 and the
    latest end 300, and the duration the code compares is 250. *)
Theorem Evaluate_twoBatchTrace_window :
  durationWindow twoBatchTrace = (50, 300)
  /\ (earliestStart (namedSpan "GET /a" 0 100) [namedSpan "GET /b" 50 300],
      latestEnd (namedSpan "GET /a" 0 100) [namedSpan "GET /b" 50 300])
     = (0, 300)
  /\ Evaluate Literal.MatchString (Literal.policy None (Some 300) None)
       noID twoBatchTrace = Ok (NotSampled, None)
  /\ Evaluate Literal.MatchString (Literal.policy None (Some 301) None)
       noID twoBatchTrace = Ok (NotSampled, None)
  /\ Evaluate Literal.MatchString (Literal.policy None (Some 250) None)
       noID twoBatchTrace = Ok (Sampled, None)
  /\ Evaluate Literal.MatchString (Literal.policy None (Some 251) None)
       noID twoBatchTrace = Ok (NotSampled, None).
Proof. repeat split; vm_compute; reflexivity. Qed.

(** ** The properties at concrete inputs *)

(** One nil entry and one span: the count is 2, and a policy asking for
    two spans samples the trace. *)
Lemma nil_entry_counted_counterexample :
  nonNilCount nilEntryTrace = 1
  /\ fmap spanCount
       (scan Literal.MatchString (Literal.policy None None (Some 2))
             nilEntryTrace) = Ok 2
  /\ fmap spanCount
       (scan Literal.MatchString (Literal.policy None None (Some 2))
             nilEntryTrace) <> Ok (nonNilCount nilEntryTrace)
  /\ Evaluate Literal.MatchString (Literal.policy None None (Some 2))
       noID nilEntryTrace = Ok (Sampled, None).
Proof.
  split; [reflexivity|]. split; [reflexivity|].
  split; [vm_compute; discriminate | reflexivity].
Qed.

Lemma NewSpanPropertiesFilter_error_iff_witness :
  NewSpanPropertiesFilter Literal.Compile (@None unit) None None None
  = (None, Some (errorsNew "at least one property must be defined"))
  /\ NewSpanPropertiesFilter Literal.Compile (@None unit) (Some "(") None None
     = (None, Some (syntaxError "missing closing )" "("))
  /\ exists re,
       NewSpanPropertiesFilter Literal.Compile (@None unit) (Some "GET")
         None (Some 3)
       = (Some (mkSpanPropertiesFilter re None (Some 3) None), None).
Proof.
  split; [|split].
  - apply (proj1 (proj2 (proj2 (@NewSpanPropertiesFilter_error_iff
             Literal.Regexp unit Literal.Compile None None None None)))).
    repeat split.
  - apply (proj1 (proj2 (proj2 (proj2 (@NewSpanPropertiesFilter_error_iff
             Literal.Regexp unit Literal.Compile None (Some "(") None None))))
           "(" (syntaxError "missing closing )" "("));
      reflexivity.
  - destruct (proj2 (proj2 (proj2 (proj2 (@NewSpanPropertiesFilter_error_iff
                Literal.Regexp unit Literal.Compile None (Some "GET") None
                (Some 3))))))
      as (re & E & _).
    + intros [(H & _) | (p & err & H & Herr)]; [discriminate|].
      injection H as <-. vm_compute in Herr. discriminate.
    + exists re. exact E.
Defined.

Lemma Evaluate_panics_or_returns_witness :
  Evaluate Literal.MatchString (Literal.policy (Some "GET") None None)
    noID namelessTrace = Panicked NilDereference
  /\ Evaluate Literal.MatchString (Literal.policy None (Some 1) None)
       noID startlessTrace = Panicked NilDereference
  /\ exists decision,
       Evaluate Literal.MatchString (Literal.policy (Some "GET") (Some 1) None)
         noID twoBatchTrace = Ok (decision, None).
Proof.
  split; [|split].
  - apply (proj1 (@Evaluate_panics_or_returns Literal.Regexp unit
             Literal.MatchString (Literal.policy (Some "GET") None None)
             noID namelessTrace) "GET" [] namelessSpan []); reflexivity.
  - apply (proj1 (proj2 (@Evaluate_panics_or_returns Literal.Regexp unit
             Literal.MatchString (Literal.policy None (Some 1) None)
             noID startlessTrace)) 1 startlessSpan);
      [reflexivity| |reflexivity].
    exists (mkBatch [Some startlessSpan]). split; left; reflexivity.
  - apply (proj2 (proj2 (@Evaluate_panics_or_returns Literal.Regexp unit
             Literal.MatchString (Literal.policy (Some "GET") (Some 1) None)
             noID twoBatchTrace))).
    reflexivity.
Defined.

(** A nil name behind a span that matched is never read. *)
Lemma nil_name_after_match_counterexample :
  operationRe (Literal.policy (Some "GET") None None) <> None
  /\ spanOf matchThenNamelessTrace namelessSpan
  /\ Name namelessSpan = None
  /\ Evaluate Literal.MatchString (Literal.policy (Some "GET") None None)
       noID matchThenNamelessTrace = Ok (Sampled, None).
Proof.
  split; [discriminate|]. split; [|split; reflexivity].
  exists (mkBatch [Some (namedSpan "GET /a" 10 50); Some namelessSpan]).
  split; [left; reflexivity | right; left; reflexivity].
Qed.

Lemma Evaluate_nonpositive_count_Sampled_witness :
  Evaluate Literal.MatchString (Literal.policy None None (Some 0))
    noID nilEntryTrace = Ok (Sampled, None)
  /\ Evaluate Literal.MatchString (Literal.policy None None (Some 0))
       noID (mkTraceData []) = Ok (Sampled, None).
Proof.
  apply (@Evaluate_nonpositive_count_Sampled Literal.Regexp unit
           Literal.MatchString (Literal.policy None None (Some 0))
           noID nilEntryTrace 0);
    [reflexivity | reflexivity | reflexivity | lia].
Defined.

(** ** The two scans of the loop, taken apart *)

Section Components.

Context {Regexp Logger : Type}.
Variable MatchString : Regexp -> string -> bool.
Variable Compile : string -> Regexp + error.

Implicit Types (df : spanPropertiesFilter Regexp Logger) (st : scanState).

Lemma visitSpan_components df st span :
  visitSpan MatchString df st (Some span)
  = joinScans (spanCount st)
      (nameStep MatchString (operationRe df) (matchingOperationFound st) span)
      (timeStep (negb (isNil (minDurationMicros df)))
                (minStartTime st, maxEndTime st) span).
Proof.
  destruct st as [f c lo hi], span as [name start stop].
  unfold visitSpan, matchName, trackDuration, nameStep, timeStep, joinScans,
    widen.
  cbn [matchingOperationFound spanCount minStartTime maxEndTime Name StartTime
       EndTime fst snd].
  destruct (operationRe df) as [re|], f; cbn [negb bind];
    try destruct name as [name|]; cbn [deref bind];
    try destruct (MatchString re (Value name)); cbn [bind setFound
      matchingOperationFound spanCount minStartTime maxEndTime];
    destruct (minDurationMicros df); cbn [isNil negb]; try reflexivity;
    destruct start as [start|], stop as [stop|]; cbn [isNil orb];
    try reflexivity;
    unfold microsOf, tsToMicros; cbn [deref bind];
    destruct (lo =? 0); cbn; try reflexivity;
    destruct (_ <? lo); cbn; destruct (_ >? hi); reflexivity.
Qed.

Lemma joinScans_None_r count found : 
  joinScans count found None = Panicked NilDereference.
Proof. destruct found; reflexivity. Qed.

Lemma rangeSpans_components df spans : forall st,
  rangeSpans MatchString df st spans
  = joinScans (spanCount st)
      (nameScan MatchString (operationRe df) (matchingOperationFound st) spans)
      (timeScan (negb (isNil (minDurationMicros df)))
                (minStartTime st, maxEndTime st) spans).
Proof.
  induction spans as [|[span|] rest IH]; intros st.
  - destruct st; reflexivity.
  - cbn [rangeSpans nameScan timeScan]. rewrite visitSpan_components.
    destruct (nameStep MatchString (operationRe df)
                (matchingOperationFound st) span) as [f|];
      [|reflexivity].
    destruct (timeStep (negb (isNil (minDurationMicros df)))
                (minStartTime st, maxEndTime st) span) as [w|];
      [|cbn [joinScans bind]; now rewrite joinScans_None_r].
    cbn [joinScans bind]. rewrite IH.
    cbn [matchingOperationFound spanCount minStartTime maxEndTime].
    rewrite <- surjective_pairing. reflexivity.
  - cbn [rangeSpans visitSpan bind nameScan timeScan]. apply IH.
Qed.

Lemma Evaluate_components df id trace :
  Evaluate MatchString df id trace
  = fmap (fun st => (verdict df st, None))
      (joinScans (entryCount trace)
         (nameScan MatchString (operationRe df) false (allSpans trace))
         (timeScan (negb (isNil (minDurationMicros df))) (0, 0)
                   (allSpans trace))).
Proof.
  rewrite Evaluate_scan. unfold scan. rewrite rangeBatches_flatten.
  fold (allSpans trace). rewrite rangeSpans_components.
  cbn [initState matchingOperationFound spanCount minStartTime maxEndTime].
  destruct (nameScan _ _ _ _) as [f|]; [|reflexivity].
  destruct (timeScan _ _ _) as [w|]; reflexivity.
Qed.

Lemma nameScan_unconfigured f spans :
  nameScan MatchString None f spans = Some f.
Proof.
  induction spans as [|[span|] rest IH];
    [reflexivity | exact IH | exact IH].
Qed.

Lemma nameScan_found re spans :
  nameScan MatchString re true spans = Some true.
Proof.
  induction spans as [|[span|] rest IH]; [reflexivity | | exact IH].
  cbn [nameScan]. destruct re; exact IH.
Qed.

Lemma nameScan_app re l1 l2 : forall f,
  nameScan MatchString re f (l1 ++ l2)
  = match nameScan MatchString re f l1 with
    | Some f' => nameScan MatchString re f' l2
    | None => None
    end.
Proof.
  induction l1 as [|[span|] rest IH]; intros f; [reflexivity | | apply IH].
  cbn [nameScan app]. destruct (nameStep MatchString re f span); [apply IH|].
  reflexivity.
Qed.

Lemma timeScan_unconfigured w spans : timeScan false w spans = Some w.
Proof.
  induction spans as [|[span|] rest IH];
    [reflexivity | exact IH | exact IH].
Qed.

Lemma timeScan_app c l1 l2 : forall w,
  timeScan c w (l1 ++ l2)
  = match timeScan c w l1 with
    | Some w' => timeScan c w' l2
    | None => None
    end.
Proof.
  induction l1 as [|[span|] rest IH]; intros w; [reflexivity | | apply IH].
  cbn [timeScan app]. destruct (timeStep c w span); [apply IH | reflexivity].
Qed.

(** The name scan fails only at a span without a name that no match
    precedes. *)
Lemma nameScan_None re spans : forall f,
  nameScan MatchString re f spans = None ->
  exists r pre span post,
    re = Some r /\ f = false /\ spans = (pre ++ Some span :: post)%list
    /\ Name span = None /\ anyMatch MatchString r pre = false.
Proof.
  induction spans as [|[span|] rest IH]; intros f H.
  - discriminate.
  - destruct re as [r|];
      [|rewrite nameScan_unconfigured in H; discriminate].
    destruct f; [rewrite nameScan_found in H; discriminate|].
    cbn [nameScan nameStep negb] in H.
    destruct (Name span) as [name|] eqn:En.
    + destruct (MatchString r (Value name)) eqn:Em.
      { rewrite nameScan_found in H. discriminate. }
      destruct (IH _ H) as (r' & pre & sp & post & [= <-] & _ & -> & Hn & Hno).
      exists r, (Some span :: pre), sp, post. repeat split; try assumption.
      unfold anyMatch in *. cbn [presentSpans existsb]. rewrite Hno.
      unfold nameMatches. rewrite En, Em. reflexivity.
    + exists r, [], span, rest. repeat split. exact En.
  - cbn [nameScan] in H.
    destruct (IH _ H) as (r & pre & sp & post & -> & -> & -> & Hn & Hno).
    exists r, (None :: pre), sp, post. repeat split; assumption.
Qed.

(** The time scan fails only at a span without a start or an end time. *)
Lemma timeScan_None c spans : forall w,
  timeScan c w spans = None ->
  c = true
  /\ exists span, In (Some span) spans
       /\ isNil (StartTime span) || isNil (EndTime span) = true.
Proof.
  induction spans as [|[span|] rest IH]; intros w H.
  - discriminate.
  - destruct c; [|rewrite timeScan_unconfigured in H; discriminate].
    split; [reflexivity|]. cbn [timeScan timeStep] in H.
    destruct (isNil (StartTime span) || isNil (EndTime span)) eqn:E.
    + exists span. split; [left; reflexivity | exact E].
    + destruct (IH _ H) as (_ & sp & Hin & Hnil).
      exists sp. split; [right; exact Hin | exact Hnil].
  - cbn [timeScan] in H. destruct (IH _ H) as (Hc & sp & Hin & Hnil).
    split; [exact Hc|]. exists sp. split; [right; exact Hin | exact Hnil].
Qed.

Lemma allSpans_app batches more :
  allSpans (mkTraceData (batches ++ more))
  = (allSpans (mkTraceData batches) ++ allSpans (mkTraceData more))%list.
Proof.
  unfold allSpans. cbn [ReceivedBatches]. now rewrite map_app, concat_app.
Qed.

Lemma anyMatch_Permutation re l1 l2 :
  Permutation l1 l2 ->
  anyMatch MatchString re l1 = anyMatch MatchString re l2.
Proof.
  unfold anyMatch. induction 1 as [|x l l' _ IH|x y l|l l' l'' _ IH1 _ IH2].
  - reflexivity.
  - destruct x; cbn [presentSpans existsb]; now rewrite IH.
  - destruct x, y; cbn [presentSpans existsb]; try reflexivity.
    now rewrite !orb_assoc, (orb_comm (nameMatches _ _ _)).
  - now rewrite IH1.
Qed.

Lemma forallb_Permutation {A : Type} (f : A -> bool) l1 l2 :
  Permutation l1 l2 -> forallb f l1 = forallb f l2.
Proof.
  induction 1 as [|x l l' _ IH|x y l|l l' l'' _ IH1 _ IH2]; cbn [forallb].
  - reflexivity.
  - now rewrite IH.
  - now rewrite !andb_assoc, (andb_comm (f y)).
  - now rewrite IH1.
Qed.

Lemma no_present_complete spans :
  presentSpans spans = [] -> forallb entryComplete spans = true.
Proof.
  induction spans as [|[span|] rest IH];
    [reflexivity | discriminate | exact IH].
Qed.

(** ** Further properties of [Evaluate] *)

(** X1: [Evaluate] reads the spans of an aggregate as one sequence; how
    they are grouped into batches has no effect on its result. *)
Theorem Evaluate_regrouping df id t1 t2 :
  allSpans t1 = allSpans t2 ->
  Evaluate MatchString df id t1 = Evaluate MatchString df id t2.
Proof.
  intros H. rewrite !Evaluate_components. unfold entryCount. now rewrite H.
Qed.

(** X2: with a minimum duration configured, on an aggregate of complete
    spans none of which starts at microsecond 0, the loops leave the
    earliest start in [minStartTime] and the latest end in [maxEndTime]. *)
Theorem scan_window_earliest_latest df trace d first others :
  wellFormed trace ->
  minDurationMicros df = Some d ->
  presentSpans (allSpans trace) = first :: others ->
  Forall (fun s => microsOf (StartTime s) <> 0) (first :: others) ->
  exists st,
    scan MatchString df trace = Ok st
    /\ minStartTime st = earliestStart first others
    /\ maxEndTime st = latestEnd first others.
Proof.
  intros Hwf Hd Hspans Hall. rewrite (scan_complete _ _ _ Hwf).
  eexists. split; [reflexivity|].
  unfold scanResult, windowAfter. rewrite Hd, Hspans.
  cbn [addCount minStartTime maxEndTime initState].
  rewrite (fold_widen_global _ _ Hall). split; reflexivity.
Qed.

(** X3: on an aggregate without a non-nil span (no batch, empty batches or
    nil entries only) [Evaluate] returns [Sampled] exactly when neither a
    pattern nor a minimum duration is configured and the number of entries
    reaches the span-count threshold, if there is one, and [NotSampled]
    exactly otherwise; with a pattern or a minimum duration configured it
    returns [NotSampled]. It never panics there. *)
Theorem Evaluate_no_spans df id trace :
  presentSpans (allSpans trace) = [] ->
  (Evaluate MatchString df id trace = Ok (Sampled, None)
   <-> operationRe df = None /\ minDurationMicros df = None
       /\ minSpanCountCriterion df trace)
  /\ (Evaluate MatchString df id trace = Ok (NotSampled, None)
      <-> ~ (operationRe df = None /\ minDurationMicros df = None
             /\ minSpanCountCriterion df trace))
  /\ (operationRe df <> None \/ minDurationMicros df <> None ->
      Evaluate MatchString df id trace = Ok (NotSampled, None)).
Proof.
  intros Hnone.
  rewrite (Evaluate_complete _ _ id _ (no_present_complete _ Hnone)).
  unfold verdict, minDurationConditionMet, operationNameConditionMet,
    minSpanCountConditionMet, minSpanCountCriterion, scanResult, opAny,
    windowAfter, anyMatch.
  rewrite Hnone.
  destruct (operationRe df) as [re|], (minDurationMicros df) as [d|];
    cbn [existsb fold_left addCount matchingOperationFound spanCount
         minStartTime maxEndTime initState orb fst snd andb Z.gtb Z.compare];
    try (split; [split; [discriminate | intros (H1 & H2 & _); discriminate]
                |split; [split; [intros _ (H1 & H2 & _); discriminate
                                |reflexivity]
                        |reflexivity]]).
  destruct (minNumberOfSpans df) as [n|].
  - destruct (Z.geb_spec (0 + entryCount trace) n) as [Hge|Hlt];
      (split; [split|split; [split|]]).
    + intros _. repeat split. lia.
    + reflexivity.
    + discriminate.
    + intros H. contradiction H. repeat split. lia.
    + intros [H|H]; contradiction H; reflexivity.
    + discriminate.
    + intros (_ & _ & Hn). lia.
    + intros _ (_ & _ & Hn). lia.
    + reflexivity.
    + intros [H|H]; contradiction H; reflexivity.
  - split; [split|split; [split|]].
    + intros _. now repeat split.
    + reflexivity.
    + discriminate.
    + intros H. contradiction H. now repeat split.
    + intros [H|H]; contradiction H; reflexivity.
Qed.

(** X4: [Evaluate] panics exactly in two cases: a pattern is configured
    and some non-nil span has a nil name with no matching span before it
    in the scan, or a minimum duration is configured and some non-nil span
    has a nil start or end time. *)
Theorem Evaluate_panics_iff df id trace :
  Evaluate MatchString df id trace = Panicked NilDereference
  <-> (exists re pre span post,
          operationRe df = Some re
          /\ allSpans trace = (pre ++ Some span :: post)%list
          /\ Name span = None
          /\ anyMatch MatchString re pre = false)
      \/ (exists d span,
          minDurationMicros df = Some d
          /\ spanOf trace span
          /\ isNil (StartTime span) || isNil (EndTime span) = true).
Proof.
  split.
  - rewrite Evaluate_components.
    destruct (nameScan MatchString (operationRe df) false (allSpans trace))
      as [f|] eqn:En.
    + destruct (timeScan (negb (isNil (minDurationMicros df))) (0, 0)
                  (allSpans trace)) as [w|] eqn:Et; [discriminate|].
      intros _. right. apply timeScan_None in Et.
      destruct Et as (Hc & span & Hin & Hnil).
      destruct (minDurationMicros df) as [d|]; [|discriminate].
      exists d, span. rewrite spanOf_allSpans. now repeat split.
    + intros _. left. apply nameScan_None in En.
      destruct En as (r & pre & span & post & Hre & _ & Hsplit & Hn & Hno).
      exists r, pre, span, post. now repeat split.
  - intros [(re & pre & span & post & Hre & Hsplit & Hn & Hno)
           |(d & span & Hd & Hin & Hnil)];
      rewrite Evaluate_scan; unfold scan; rewrite rangeBatches_flatten;
      fold (allSpans trace).
    + rewrite Hsplit, (rangeSpans_nil_name _ _ _ _ _ _ Hre Hn Hno).
      reflexivity.
    + apply spanOf_allSpans, in_split in Hin.
      destruct Hin as (pre & post & Hsplit).
      rewrite Hsplit, (rangeSpans_nil_time _ _ _ _ _ _ Hd Hnil). reflexivity.
Qed.

(** X5: a policy that asks for no more than another one (the same pattern
    or none, each threshold absent or not higher) samples every aggregate
    the other one samples. *)
Theorem Evaluate_relaxed_still_Sampled df df' id trace :
  relaxes df' df ->
  Evaluate MatchString df id trace = Ok (Sampled, None) ->
  Evaluate MatchString df' id trace = Ok (Sampled, None).
Proof.
  intros (Hre & Hd & Hn). rewrite !Evaluate_components.
  destruct (nameScan MatchString (operationRe df) false (allSpans trace))
    as [f|] eqn:En; [|discriminate].
  destruct (timeScan (negb (isNil (minDurationMicros df))) (0, 0)
              (allSpans trace)) as [w|] eqn:Et; [|discriminate].
  cbn [joinScans fmap bind]. unfold verdict.
  destruct (minDurationConditionMet df _) eqn:Cd; [|discriminate].
  destruct (operationNameConditionMet df _) eqn:Co; [|discriminate].
  destruct (minSpanCountConditionMet df _) eqn:Cn; [|discriminate].
  intros _.
  unfold minDurationConditionMet, operationNameConditionMet,
    minSpanCountConditionMet in *.
  cbn [matchingOperationFound spanCount minStartTime maxEndTime] in *.
  assert (En' : exists f',
             nameScan MatchString (operationRe df') false (allSpans trace)
             = Some f'
             /\ match operationRe df' with Some _ => f' | None => true end
                = true).
  { destruct Hre as [Hre|Hre]; rewrite Hre.
    - rewrite nameScan_unconfigured. now exists false.
    - rewrite En. exists f. split; [reflexivity | exact Co]. }
  destruct En' as (f' & -> & Co').
  assert (Et' : exists w',
             timeScan (negb (isNil (minDurationMicros df'))) (0, 0)
                      (allSpans trace) = Some w'
             /\ match minDurationMicros df' with
                | Some x => (snd w' >? fst w')
                            && (Int64.sub (snd w') (fst w') >=? x)
                | None => true
                end = true).
  { destruct (minDurationMicros df') as [x|].
    - destruct (minDurationMicros df) as [y|]; [|contradiction].
      cbn [droppedOrLowered] in Hd. cbn [isNil negb] in *. rewrite Et.
      exists w. split; [reflexivity|].
      apply andb_true_iff in Cd. destruct Cd as [C1 C2].
      rewrite C1. cbn [andb]. rewrite Z.geb_le in *. lia.
    - cbn [isNil negb]. rewrite timeScan_unconfigured. now eexists. }
  destruct Et' as (w' & -> & Cd').
  cbn [joinScans fmap bind matchingOperationFound spanCount minStartTime
       maxEndTime].
  rewrite Cd', Co'.
  destruct (minNumberOfSpans df') as [x|]; [|reflexivity].
  destruct (minNumberOfSpans df) as [y|]; [|contradiction].
  cbn [droppedOrLowered] in Hn.
  destruct (Z.geb_spec (entryCount trace) x) as [_|Hlt]; [reflexivity|].
  rewrite Z.geb_le in Cn. lia.
Qed.

(** X6: without a minimum duration configured, an aggregate that is sampled
    stays sampled when batches are appended to it, whatever they hold. *)
Theorem Evaluate_append_still_Sampled df id batches more :
  minDurationMicros df = None ->
  Evaluate MatchString df id (mkTraceData batches) = Ok (Sampled, None) ->
  Evaluate MatchString df id (mkTraceData (batches ++ more))
  = Ok (Sampled, None).
Proof.
  intros Hd. rewrite !Evaluate_components. unfold entryCount.
  rewrite allSpans_app, nameScan_app, length_app, Hd.
  cbn [isNil negb]. rewrite !timeScan_unconfigured.
  destruct (nameScan MatchString (operationRe df) false
              (allSpans (mkTraceData batches))) as [f|]; [|discriminate].
  cbn [joinScans fmap bind]. unfold verdict, minDurationConditionMet,
    operationNameConditionMet, minSpanCountConditionMet.
  rewrite Hd. cbn [matchingOperationFound spanCount andb].
  destruct (operationRe df) as [re|].
  - destruct f; [|discriminate]. rewrite nameScan_found.
    cbn [joinScans fmap bind matchingOperationFound spanCount].
    destruct (minNumberOfSpans df) as [n|]; [|reflexivity].
    destruct (Z.geb_spec (Z.of_nat (List.length
                (allSpans (mkTraceData batches)))) n); [|discriminate].
    intros _.
    destruct (Z.geb_spec (Z.of_nat (List.length
                (allSpans (mkTraceData batches))
              + List.length (allSpans (mkTraceData more)))) n);
      [reflexivity | lia].
  - rewrite nameScan_unconfigured.
    cbn [joinScans fmap bind matchingOperationFound spanCount].
    destruct (minNumberOfSpans df) as [n|]; [|reflexivity].
    destruct (Z.geb_spec (Z.of_nat (List.length
                (allSpans (mkTraceData batches)))) n); [|discriminate].
    intros _.
    destruct (Z.geb_spec (Z.of_nat (List.length
                (allSpans (mkTraceData batches))
              + List.length (allSpans (mkTraceData more)))) n);
      [reflexivity | lia].
Qed.

(** X7: without a minimum duration configured, the result of [Evaluate]
    on an aggregate of complete spans does not depend on the order of the
    spans. *)
Theorem Evaluate_permutation df id t1 t2 :
  wellFormed t1 ->
  minDurationMicros df = None ->
  Permutation (allSpans t1) (allSpans t2) ->
  Evaluate MatchString df id t1 = Evaluate MatchString df id t2.
Proof.
  intros Hwf Hd Hperm.
  assert (Hwf2 : wellFormed t2).
  { unfold wellFormed in *. now rewrite <- (forallb_Permutation _ _ _ Hperm). }
  rewrite (Evaluate_complete _ _ id _ Hwf), (Evaluate_complete _ _ id _ Hwf2).
  unfold entryCount, scanResult, opAny, windowAfter.
  rewrite (Permutation_length Hperm), Hd.
  destruct (operationRe df) as [re|]; [|reflexivity].
  now rewrite (anyMatch_Permutation re _ _ Hperm).
Qed.

(** X9: for a policy with only a minimum duration, a first span that
    starts at microsecond 0 leaves no trace in the window once a second
    span follows: [Evaluate] answers as it does without the first span. *)
Theorem Evaluate_forgets_zero_start df id trace trace' d first second rest :
  operationRe df = None ->
  minNumberOfSpans df = None ->
  minDurationMicros df = Some d ->
  allSpans trace = Some first :: Some second :: rest ->
  allSpans trace' = Some second :: rest ->
  tsToMicros (StartTime first) = Ok 0 ->
  isNil (EndTime first) = false ->
  Evaluate MatchString df id trace = Evaluate MatchString df id trace'.
Proof.
  intros Hre Hn Hd Hall Hall' Hstart Hend.
  rewrite !Evaluate_components, Hall, Hall', Hre, Hd, !nameScan_unconfigured.
  cbn [isNil negb timeScan]. unfold timeStep at 1.
  assert (Hs : isNil (StartTime first) = false).
  { destruct (StartTime first); [reflexivity | discriminate]. }
  rewrite Hs, Hend. cbn [orb].
  assert (Hw : widen (0, 0) first = (0, microsOf (EndTime first))).
  { unfold widen. cbn [fst Z.eqb]. unfold microsOf at 1. now rewrite Hstart. }
  rewrite Hw. unfold timeStep.
  destruct (isNil (StartTime second) || isNil (EndTime second));
    [reflexivity|].
  replace (widen (0, microsOf (EndTime first)) second)
    with (widen (0, 0) second) by reflexivity.
  destruct (timeScan true (widen (0, 0) second) rest) as [w|]; [|reflexivity].
  cbn [joinScans fmap bind]. unfold verdict, minDurationConditionMet,
    operationNameConditionMet, minSpanCountConditionMet.
  rewrite Hre, Hn, Hd. reflexivity.
Qed.

(** X10: the constructor accepts a span count alone, and the evaluator it
    returns decides by the number of entries of the batches and nothing
    else: it never panics, and it returns [Sampled] exactly when the
    number of entries reaches the threshold. *)
Theorem count_only_policy_decides_by_entries (logger : option Logger) n :
  exists df,
    NewSpanPropertiesFilter Compile logger None None (Some n) = (Some df, None)
    /\ forall id trace,
         Evaluate MatchString df id trace
         = Ok (if entryCount trace >=? n then Sampled else NotSampled, None).
Proof.
  eexists. split; [reflexivity|]. intros id trace.
  rewrite Evaluate_components. cbn [operationRe minDurationMicros isNil negb].
  rewrite nameScan_unconfigured, timeScan_unconfigured.
  cbn [joinScans fmap bind]. unfold verdict, minDurationConditionMet,
    operationNameConditionMet, minSpanCountConditionMet.
  cbn [operationRe minDurationMicros minNumberOfSpans spanCount andb].
  destruct (entryCount trace >=? n); reflexivity.
Qed.

(** X11: every evaluator the constructor returns has at least one of the
    three criteria configured, and holds the two thresholds it was given. *)
Theorem constructed_policy_has_criterion (logger : option Logger) pattern
    minDuration minSpans df :
  NewSpanPropertiesFilter Compile logger pattern minDuration minSpans
  = (Some df, None) ->
  (operationRe df <> None \/ minDurationMicros df <> None
   \/ minNumberOfSpans df <> None)
  /\ (operationRe df <> None <-> pattern <> None)
  /\ minDurationMicros df = minDuration
  /\ minNumberOfSpans df = minSpans.
Proof.
  unfold NewSpanPropertiesFilter.
  destruct pattern as [p|]; [destruct (Compile p) as [re|err]|];
    cbn [isNil andb]; try discriminate.
  - intros [= <-]. cbn. repeat split; try discriminate.
    left. discriminate.
  - destruct minDuration as [d|], minSpans as [n|]; cbn [isNil andb];
      try discriminate; intros [= <-]; cbn;
      (repeat split; try (intros H; contradiction H; reflexivity));
      try (right; left; discriminate); right; right; discriminate.
Qed.

End Components.

(** X8: on timestamps with nanoseconds in [0, 10^9) and seconds in the
    range where the microsecond count fits in 64 bits, the conversion
    preserves the order of timestamps, strictly when the seconds differ. *)
Theorem tsToMicros_monotone s1 n1 s2 n2 :
  -9223372036854 <= s1 ->
  s2 <= 9223372036852 ->
  0 <= n1 < 1000000000 ->
  0 <= n2 < 1000000000 ->
  s1 < s2 \/ (s1 = s2 /\ n1 <= n2) ->
  exists m1 m2,
    tsToMicros (Some (mkTimestamp s1 n1)) = Ok m1
    /\ tsToMicros (Some (mkTimestamp s2 n2)) = Ok m2
    /\ m1 <= m2
    /\ (s1 < s2 -> m1 < m2).
Proof.
  intros Hlo Hhi Hn1 Hn2 Hle.
  assert (B1 : 0 <= n1 / 1000 < 1000000).
  { split; [apply Z.div_pos; lia | apply Z.div_lt_upper_bound; lia]. }
  assert (B2 : 0 <= n2 / 1000 < 1000000).
  { split; [apply Z.div_pos; lia | apply Z.div_lt_upper_bound; lia]. }
  exists (s1 * 1000000 + n1 / 1000), (s2 * 1000000 + n2 / 1000).
  rewrite !tsToMicros_wrap by lia.
  rewrite !Int64_wrap_small
    by (unfold Int64.in_range, Int64.min_signed, Int64.max_signed; lia).
  split; [reflexivity|]. split; [reflexivity|].
  split; [|lia].
  destruct Hle as [Hlt|[-> Hn]]; [lia|].
  pose proof (Z.div_le_mono n1 n2 1000 ltac:(lia) Hn). lia.
Qed.

Section FirstMatch.

Context {Regexp Logger : Type}.
Variable MatchString : Regexp -> string -> bool.

(** The name scan ends on a match exactly when some span matches and every
    span before it has a name, which does not match. *)
Lemma nameScan_true_iff re spans :
  nameScan MatchString (Some re) false spans = Some true
  <-> exists pre span post name,
        spans = (pre ++ Some span :: post)%list
        /\ Name span = Some name
        /\ MatchString re (Value name) = true
        /\ forall s, In (Some s) pre ->
             exists nm, Name s = Some nm /\ MatchString re (Value nm) = false.
Proof.
  split.
  - induction spans as [|[s|] rest IH]; intros H.
    + discriminate.
    + cbn [nameScan nameStep negb] in H.
      destruct (Name s) as [nm|] eqn:En; [|discriminate].
      destruct (MatchString re (Value nm)) eqn:Em.
      * exists [], s, rest, nm. repeat split; try assumption.
        intros s' [].
      * destruct (IH H) as (pre & span & post & name & -> & Hn & Hm & Hpre).
        exists (Some s :: pre), span, post, name. repeat split; try assumption.
        intros s' [[= <-]|Hin]; [exists nm; now split | now apply Hpre].
    + cbn [nameScan] in H.
      destruct (IH H) as (pre & span & post & name & -> & Hn & Hm & Hpre).
      exists (None :: pre), span, post, name. repeat split; try assumption.
      intros s' [Hs|Hin]; [discriminate | now apply Hpre].
  - intros (pre & span & post & name & -> & Hn & Hm & Hpre).
    induction pre as [|[s|] pre IH].
    + cbn [app nameScan nameStep negb]. rewrite Hn, Hm. apply nameScan_found.
    + cbn [app nameScan nameStep negb].
      destruct (Hpre s (or_introl eq_refl)) as (nm & -> & ->).
      apply IH. intros s' Hin. apply Hpre. now right.
    + cbn [app nameScan]. apply IH. intros s' Hin. apply Hpre. now right.
Qed.

(** X12: a policy with only a pattern samples an aggregate exactly when,
    in the order of the scan, some non-nil span matches the pattern and
    every non-nil span before it has a name, which does not match; the
    spans after the first match are not looked at. *)
Theorem pattern_only_first_match
    (df : spanPropertiesFilter Regexp Logger) id trace re :
  operationRe df = Some re ->
  minDurationMicros df = None ->
  minNumberOfSpans df = None ->
  Evaluate MatchString df id trace = Ok (Sampled, None)
  <-> exists pre span post name,
        allSpans trace = (pre ++ Some span :: post)%list
        /\ Name span = Some name
        /\ MatchString re (Value name) = true
        /\ forall s, In (Some s) pre ->
             exists nm, Name s = Some nm /\ MatchString re (Value nm) = false.
Proof.
  intros Hre Hd Hn. rewrite <- nameScan_true_iff, Evaluate_components.
  rewrite Hre, Hd. cbn [isNil negb]. rewrite timeScan_unconfigured.
  destruct (nameScan MatchString (Some re) false (allSpans trace)) as [f|];
    [|split; discriminate].
  cbn [joinScans fmap bind]. unfold verdict, minDurationConditionMet,
    operationNameConditionMet, minSpanCountConditionMet.
  rewrite Hre, Hd, Hn. cbn [matchingOperationFound andb].
  destruct f; split; try reflexivity; discriminate.
Qed.

End FirstMatch.

(** ** The further properties at concrete inputs *)

Lemma Evaluate_regrouping_witness :
  Evaluate Literal.MatchString samplePolicy noID twoBatchTrace
  = Evaluate Literal.MatchString samplePolicy noID oneBatchTrace.
Proof.
  apply (@Evaluate_regrouping Literal.Regexp unit Literal.MatchString
           samplePolicy noID twoBatchTrace oneBatchTrace).
  reflexivity.
Defined.

Lemma scan_window_earliest_latest_witness :
  exists st,
    scan Literal.MatchString samplePolicy lateStartTrace = Ok st
    /\ minStartTime st
       = earliestStart (namedSpan "GET /a" 10 100) [namedSpan "GET /b" 50 300]
    /\ maxEndTime st
       = latestEnd (namedSpan "GET /a" 10 100) [namedSpan "GET /b" 50 300].
Proof.
  apply (@scan_window_earliest_latest Literal.Regexp unit Literal.MatchString
           samplePolicy lateStartTrace 250);
    [reflexivity | reflexivity | reflexivity |].
  repeat constructor; vm_compute; discriminate.
Defined.

Lemma Evaluate_no_spans_witness :
  Evaluate Literal.MatchString (Literal.policy (Some "GET") None None)
    noID (mkTraceData [mkBatch [None]]) = Ok (NotSampled, None).
Proof.
  apply (proj2 (proj2 (@Evaluate_no_spans Literal.Regexp unit
                         Literal.MatchString
                         (Literal.policy (Some "GET") None None) noID
                         (mkTraceData [mkBatch [None]]) eq_refl))).
  left. discriminate.
Defined.

Lemma Evaluate_panics_iff_witness :
  Evaluate Literal.MatchString (Literal.policy None (Some 1) None)
    noID startlessTrace = Panicked NilDereference.
Proof.
  apply (proj2 (@Evaluate_panics_iff Literal.Regexp unit Literal.MatchString
                  (Literal.policy None (Some 1) None) noID startlessTrace)).
  right. exists 1, startlessSpan. split; [reflexivity|]. split; [|reflexivity].
  exists (mkBatch [Some startlessSpan]). split; left; reflexivity.
Defined.

Lemma Evaluate_relaxed_still_Sampled_witness :
  Evaluate Literal.MatchString (Literal.policy None (Some 100) None)
    noID twoBatchTrace = Ok (Sampled, None).
Proof.
  apply (@Evaluate_relaxed_still_Sampled Literal.Regexp unit
           Literal.MatchString samplePolicy
           (Literal.policy None (Some 100) None) noID twoBatchTrace).
  - split; [left; reflexivity|]. split; [cbn; lia | exact I].
  - reflexivity.
Defined.

Lemma Evaluate_append_still_Sampled_witness :
  Evaluate Literal.MatchString (Literal.policy (Some "GET") None (Some 1))
    noID (mkTraceData ([mkBatch [Some (namedSpan "GET /a" 10 50)]]
                       ++ [mkBatch [Some namelessSpan]]))
  = Ok (Sampled, None).
Proof.
  apply (@Evaluate_append_still_Sampled Literal.Regexp unit
           Literal.MatchString (Literal.policy (Some "GET") None (Some 1))
           noID [mkBatch [Some (namedSpan "GET /a" 10 50)]]
           [mkBatch [Some namelessSpan]]);
    reflexivity.
Defined.

Lemma Evaluate_permutation_witness :
  Evaluate Literal.MatchString (Literal.policy (Some "GET /b") None (Some 2))
    noID twoBatchTrace
  = Evaluate Literal.MatchString (Literal.policy (Some "GET /b") None (Some 2))
      noID swappedTrace.
Proof.
  apply (@Evaluate_permutation Literal.Regexp unit Literal.MatchString
           (Literal.policy (Some "GET /b") None (Some 2)) noID
           twoBatchTrace swappedTrace);
    [reflexivity | reflexivity |].
  unfold allSpans. cbn [twoBatchTrace swappedTrace ReceivedBatches map Spans
                        List.concat app].
  apply perm_swap.
Defined.

Lemma tsToMicros_monotone_witness :
  exists m1 m2,
    tsToMicros (Some (mkTimestamp 1 999999999)) = Ok m1
    /\ tsToMicros (Some (mkTimestamp 2 0)) = Ok m2
    /\ m1 <= m2
    /\ (1 < 2 -> m1 < m2).
Proof.
  apply (tsToMicros_monotone 1 999999999 2 0); lia.
Defined.

Lemma Evaluate_forgets_zero_start_witness :
  Evaluate Literal.MatchString (Literal.policy None (Some 250) None)
    noID twoBatchTrace
  = Evaluate Literal.MatchString (Literal.policy None (Some 250) None)
      noID secondSpanTrace.
Proof.
  apply (@Evaluate_forgets_zero_start Literal.Regexp unit Literal.MatchString
           (Literal.policy None (Some 250) None) noID twoBatchTrace
           secondSpanTrace 250 (namedSpan "GET /a" 0 100)
           (namedSpan "GET /b" 50 300) []);
    reflexivity.
Defined.

Lemma constructed_policy_has_criterion_witness :
  (operationRe (Literal.policy (Some "GET") None (Some 3)) <> None
   \/ minDurationMicros (Literal.policy (Some "GET") None (Some 3)) <> None
   \/ minNumberOfSpans (Literal.policy (Some "GET") None (Some 3)) <> None)
  /\ (operationRe (Literal.policy (Some "GET") None (Some 3)) <> None
      <-> Some "GET" <> None)
  /\ minDurationMicros (Literal.policy (Some "GET") None (Some 3)) = None
  /\ minNumberOfSpans (Literal.policy (Some "GET") None (Some 3)) = Some 3.
Proof.
  apply (@constructed_policy_has_criterion Literal.Regexp unit
           Literal.Compile None (Some "GET") None (Some 3)).
  reflexivity.
Defined.

Lemma pattern_only_first_match_witness :
  Evaluate Literal.MatchString (Literal.policy (Some "GET") None None)
    noID matchThenNamelessTrace = Ok (Sampled, None).
Proof.
  apply (proj2 (@pattern_only_first_match Literal.Regexp unit
                  Literal.MatchString (Literal.policy (Some "GET") None None)
                  noID matchThenNamelessTrace "GET"
                  eq_refl eq_refl eq_refl)).
  exists [], (namedSpan "GET /a" 10 50), [Some namelessSpan],
    (mkTruncatableString "GET /a").
  repeat split. intros s [].
Defined.

(** ** [Evaluate] against the criteria of the specification *)

Lemma micros_in_range s n :
  -9223372036854 <= s <= 9223372036852 ->
  0 <= n <= 2147483647 ->
  Int64.in_range (s * 1000000 + n / 1000).
Proof.
  intros Hs Hn. unfold Int64.in_range, Int64.min_signed, Int64.max_signed.
  assert (0 <= n / 1000 < 2147484).
  { split; [apply Z.div_pos; lia | apply Z.div_lt_upper_bound; lia]. }
  lia.
Qed.

Lemma tsInRange_spec t :
  tsInRange t = true ->
  microsOf (Some t) = specMicros t /\ Int64.in_range (specMicros t).
Proof.
  destruct t as [s n]. unfold tsInRange, specMicros. cbn [Seconds Nanos].
  rewrite !andb_true_iff, !Z.leb_le. intros (((Hs1 & Hs2) & Hn1) & Hn2).
  assert (Hr : Int64.in_range (s * 1000000 + n / 1000))
    by (apply micros_in_range; lia).
  split; [|exact Hr].
  unfold microsOf. rewrite tsToMicros_wrap by exact Hn1.
  apply Int64_wrap_small, Hr.
Qed.

Lemma spanTimed_spec span :
  spanTimed span = true ->
  isNil (StartTime span) || isNil (EndTime span) = false
  /\ microsOf (StartTime span) = specMicrosOf (StartTime span)
  /\ microsOf (EndTime span) = specMicrosOf (EndTime span)
  /\ 0 < specMicrosOf (StartTime span)
  /\ specMicrosOf (EndTime span) <= Int64.max_signed.
Proof.
  unfold spanTimed.
  destruct (StartTime span) as [s|], (EndTime span) as [e|]; try discriminate.
  rewrite !andb_true_iff, Z.ltb_lt. intros ((Hs & He) & Hpos).
  destruct (tsInRange_spec _ Hs) as [Es _].
  destruct (tsInRange_spec _ He) as [Ee [_ Re]].
  cbn [specMicrosOf isNil orb]. now repeat split.
Qed.

Lemma timed_present spans :
  forallb entryTimed spans = true ->
  Forall (fun s => spanTimed s = true) (presentSpans spans).
Proof.
  induction spans as [|[span|] rest IH]; cbn [forallb entryTimed presentSpans].
  - constructor.
  - rewrite andb_true_iff. intros [Hs Hr].
    constructor; [exact Hs | now apply IH].
  - exact IH.
Qed.

Lemma timeScan_timed spans : forall w,
  forallb entryTimed spans = true ->
  timeScan true w spans = Some (fold_left widen (presentSpans spans) w).
Proof.
  induction spans as [|[span|] rest IH]; intros w;
    cbn [forallb entryTimed timeScan presentSpans fold_left].
  - reflexivity.
  - rewrite andb_true_iff. intros [Hs Hr]. unfold timeStep.
    destruct (spanTimed_spec _ Hs) as (-> & _). now apply IH.
  - apply IH.
Qed.

Section SpecCriteria.

Context {Regexp Logger : Type}.
Variable MatchString : Regexp -> string -> bool.

Implicit Types (df : spanPropertiesFilter Regexp Logger).

Lemma nameScan_named re spans : forall f,
  forallb entryNamed spans = true ->
  nameScan MatchString (Some re) f spans
  = Some (f || anyMatch MatchString re spans).
Proof.
  unfold anyMatch.
  induction spans as [|[span|] rest IH]; intros f;
    cbn [forallb entryNamed nameScan presentSpans existsb].
  - now rewrite orb_false_r.
  - rewrite andb_true_iff. intros [Hs Hr]. unfold nameStep, nameMatches.
    destruct (Name span) as [name|]; [|discriminate].
    destruct f; cbn [negb orb].
    + now rewrite (IH _ Hr).
    + rewrite (IH _ Hr). reflexivity.
  - apply IH.
Qed.

End SpecCriteria.

Lemma fold_min_pos l : forall init,
  0 < init -> Forall (fun x => 0 < x) l -> 0 < fold_left Z.min l init.
Proof.
  induction l as [|x l IH]; intros init Hi Hl; [exact Hi|].
  inversion Hl; subst. cbn [fold_left]. apply IH; [lia | assumption].
Qed.

Lemma fold_max_le bound l : forall init,
  init <= bound -> Forall (fun x => x <= bound) l ->
  fold_left Z.max l init <= bound.
Proof.
  induction l as [|x l IH]; intros init Hi Hl; [exact Hi|].
  inversion Hl; subst. cbn [fold_left]. apply IH; [lia | assumption].
Qed.

(** On spans with timestamps in range that start after microsecond 0, the
    window of the loop is the least start and the greatest end of the
    specification, the least start is positive and the greatest end fits
    in 64 bits. *)
Lemma window_spec first others :
  Forall (fun s => spanTimed s = true) (first :: others) ->
  fold_left widen (first :: others) (0, 0)
  = (specMinStart first others, specMaxEnd first others)
  /\ 0 < specMinStart first others
  /\ specMaxEnd first others <= Int64.max_signed.
Proof.
  intros Hall.
  assert (Hmap : map (fun s => microsOf (StartTime s)) others
                 = map (fun s => specMicrosOf (StartTime s)) others
                 /\ map (fun s => microsOf (EndTime s)) others
                    = map (fun s => specMicrosOf (EndTime s)) others
                 /\ Forall (fun x => 0 < x)
                      (map (fun s => specMicrosOf (StartTime s)) others)
                 /\ Forall (fun x => x <= Int64.max_signed)
                      (map (fun s => specMicrosOf (EndTime s)) others)).
  { inversion Hall as [|? ? _ Hothers]; subst. clear Hall.
    induction others as [|s rest IH]; cbn [map].
    - repeat split; constructor.
    - inversion Hothers as [|? ? Hs Hrest]; subst.
      destruct (IH Hrest) as (E1 & E2 & P & B).
      destruct (spanTimed_spec _ Hs) as (_ & Es & Ee & Hpos & Hb).
      rewrite E1, E2, Es, Ee. repeat split; constructor; assumption. }
  destruct Hmap as (E1 & E2 & P & B).
  inversion Hall as [|? ? Hfirst _]; subst.
  destruct (spanTimed_spec _ Hfirst) as (_ & Es & Ee & Hpos & Hb).
  split; [|split].
  - rewrite fold_widen_global.
    + unfold earliestStart, latestEnd, specMinStart, specMaxEnd.
      now rewrite E1, E2, Es, Ee.
    + apply Forall_forall. intros s Hin.
      rewrite Forall_forall in Hall.
      destruct (spanTimed_spec _ (Hall s Hin)) as (_ & -> & _ & Hp & _). lia.
  - apply fold_min_pos; assumption.
  - apply fold_max_le; assumption.
Qed.

Lemma duration_condition_spec lo hi d :
  0 < lo -> hi <= Int64.max_signed ->
  (hi >? lo) && (Int64.sub hi lo >=? d) = true <-> hi > lo /\ hi - lo >= d.
Proof.
  intros Hlo Hhi. unfold Int64.max_signed in Hhi.
  rewrite andb_true_iff, Z.gtb_ltb, Z.ltb_lt, Z.geb_le. split.
  - intros [Hlt Hge]. unfold Int64.sub in Hge.
    rewrite Int64_wrap_small in Hge
      by (unfold Int64.in_range, Int64.min_signed, Int64.max_signed; lia).
    lia.
  - intros [Hlt Hge]. split; [lia|]. unfold Int64.sub.
    rewrite Int64_wrap_small
      by (unfold Int64.in_range, Int64.min_signed, Int64.max_signed; lia).
    lia.
Qed.

Section SpecCriteria.

Context {Regexp Logger : Type}.
Variable MatchString : Regexp -> string -> bool.

Implicit Types (df : spanPropertiesFilter Regexp Logger).

(** C3, as the code has it by design: on an aggregate where every non-nil
    span has a name if a pattern is configured and, if a minimum duration
    is configured, has both timestamps in the range where the conversion
    does not wrap and starts after microsecond 0, [Evaluate] returns
    [Sampled] exactly when every configured criterion holds and
    [NotSampled] exactly when one fails. The operation-name criterion
    holds when some non-nil span of some batch has a name the pattern
    matches; the duration criterion when the greatest end is after the
    least start and their difference reaches the threshold; the
    span-count criterion when the number of entries reaches the
    threshold; a criterion that is not configured holds. *)
Theorem Evaluate_Sampled_iff_spec_criteria df id trace :
  (operationRe df <> None -> namedTrace trace) ->
  (minDurationMicros df <> None -> timedTrace trace) ->
  (Evaluate MatchString df id trace = Ok (Sampled, None)
   <-> operationNameCriterion MatchString df trace
       /\ specMinDurationCriterion df trace
       /\ minSpanCountCriterion df trace)
  /\ (Evaluate MatchString df id trace = Ok (NotSampled, None)
      <-> ~ (operationNameCriterion MatchString df trace
             /\ specMinDurationCriterion df trace
             /\ minSpanCountCriterion df trace)).
Proof.
  intros Hnamed Htimed.
  assert (Hname : exists f,
             nameScan MatchString (operationRe df) false (allSpans trace)
             = Some f
             /\ (match operationRe df with Some _ => f | None => true end
                 = true
                 <-> operationNameCriterion MatchString df trace)).
  { unfold operationNameCriterion.
    destruct (operationRe df) as [re|].
    - rewrite nameScan_named by (apply Hnamed; discriminate).
      eexists. split; [reflexivity|]. cbn [orb]. apply anyMatch_spanOf.
    - rewrite nameScan_unconfigured. exists false. split; [reflexivity|tauto]. }
  assert (Htime : exists w,
             timeScan (negb (isNil (minDurationMicros df))) (0, 0)
                      (allSpans trace) = Some w
             /\ (match minDurationMicros df with
                 | Some d => (snd w >? fst w)
                             && (Int64.sub (snd w) (fst w) >=? d)
                 | None => true
                 end = true
                 <-> specMinDurationCriterion df trace)).
  { unfold specMinDurationCriterion.
    destruct (minDurationMicros df) as [d|]; cbn [isNil negb].
    - assert (Ht : timedTrace trace) by (apply Htimed; discriminate).
      rewrite (timeScan_timed _ _ Ht). eexists. split; [reflexivity|].
      pose proof (timed_present _ Ht) as Hall.
      destruct (presentSpans (allSpans trace)) as [|first others].
      + cbn. split; [discriminate | intros []].
      + destruct (window_spec _ _ Hall) as (-> & Hlo & Hhi).
        cbn [fst snd specDurationCriterion].
        apply duration_condition_spec; assumption.
    - rewrite timeScan_unconfigured. eexists. split; [reflexivity|tauto]. }
  assert (Hcount : match minNumberOfSpans df with
                   | Some n => entryCount trace >=? n
                   | None => true
                   end = true
                   <-> minSpanCountCriterion df trace).
  { unfold minSpanCountCriterion. destruct (minNumberOfSpans df) as [n|];
      [rewrite Z.geb_le; lia | tauto]. }
  destruct Hname as (f & En & Hname). destruct Htime as (w & Et & Htime).
  rewrite Evaluate_components, En, Et. cbn [joinScans fmap bind].
  rewrite <- Hname, <- Htime, <- Hcount.
  unfold verdict, minDurationConditionMet, operationNameConditionMet,
    minSpanCountConditionMet.
  cbn [matchingOperationFound spanCount minStartTime maxEndTime].
  destruct (match minDurationMicros df with Some _ => _ | None => _ end),
    (match operationRe df with Some _ => _ | None => _ end),
    (match minNumberOfSpans df with Some _ => _ | None => _ end);
    cbn [andb]; split; split; intros H; try reflexivity; try discriminate;
    intuition discriminate.
Qed.

End SpecCriteria.

Lemma Evaluate_Sampled_iff_spec_criteria_witness :
  namedTrace lateStartTrace
  /\ timedTrace lateStartTrace
  /\ (Evaluate Literal.MatchString samplePolicy noID lateStartTrace
      = Ok (Sampled, None)
      <-> operationNameCriterion Literal.MatchString samplePolicy
            lateStartTrace
          /\ specMinDurationCriterion samplePolicy lateStartTrace
          /\ minSpanCountCriterion samplePolicy lateStartTrace).
Proof.
  split; [reflexivity|]. split; [reflexivity|].
  apply (@Evaluate_Sampled_iff_spec_criteria Literal.Regexp unit
           Literal.MatchString samplePolicy noID lateStartTrace);
    intros _; reflexivity.
Defined.

(** A matching span behind a span without a name: the criteria hold and
    [Evaluate] panics. The two spans of [twoBatchTrace] with a threshold
    of 300: the criteria hold and [Evaluate] returns [NotSampled]. *)
Lemma Evaluate_criteria_counterexample :
  (operationNameCriterion Literal.MatchString
     (Literal.policy (Some "GET") None None) namelessThenMatchTrace
   /\ specMinDurationCriterion (Literal.policy (Some "GET") None None)
        namelessThenMatchTrace
   /\ minSpanCountCriterion (Literal.policy (Some "GET") None None)
        namelessThenMatchTrace
   /\ Evaluate Literal.MatchString (Literal.policy (Some "GET") None None)
        noID namelessThenMatchTrace = Panicked NilDereference)
  /\ (operationNameCriterion Literal.MatchString
        (Literal.policy None (Some 300) None) twoBatchTrace
      /\ specMinDurationCriterion (Literal.policy None (Some 300) None)
           twoBatchTrace
      /\ minSpanCountCriterion (Literal.policy None (Some 300) None)
           twoBatchTrace
      /\ Evaluate Literal.MatchString (Literal.policy None (Some 300) None)
           noID twoBatchTrace = Ok (NotSampled, None)).
Proof.
  split.
  - split; [|split; [exact I | split; [exact I | reflexivity]]].
    exists (namedSpan "GET /a" 10 50), (mkTruncatableString "GET /a").
    split; [|split; reflexivity].
    exists (mkBatch [Some namelessSpan; Some (namedSpan "GET /a" 10 50)]).
    split; [left; reflexivity | right; left; reflexivity].
  - split; [exact I|]. split; [|split; [exact I | reflexivity]].
    vm_compute. split; [reflexivity | discriminate].
Qed.
